(** * go-hash-player: hash-chained block streaming

    A shallow embedding of the [decoder] and [encoder] packages of
    go-hash-player, together with the properties of the chain builder
    ([Encoder.PreProcess]), the block server ([Encoder.Request],
    [Encoder.Close]) and the verifier ([Decode]).

    Go slices of bytes are [list byte]; a nil slice and an empty slice are
    both the empty list.  [int64] values are [Z] with the wrap-around of
    two's complement arithmetic written out ([wrap64]); Go's [/] and [%]
    truncate towards zero and are [Z.quot] and [Z.rem]. *)

From Stdlib Require Import ZArith List Lia Bool Strings.Byte Ascii String.
From stdpp Require Import base option list gmap strings.

Local Open Scope Z_scope.

(** ** SHA-256 (crypto/sha256)

    The digest used by both packages, after FIPS 180-4, on 32-bit words
    held in [Z]. *)

Module Sha256.

Definition mask32 : Z := 4294967295.

Definition add32 (x y : Z) : Z := Z.land (x + y) mask32.

Definition rotr (n x : Z) : Z :=
  Z.lor (Z.shiftr x n) (Z.land (Z.shiftl x (32 - n)) mask32).

Definition not32 (x : Z) : Z := Z.lxor x mask32.

Definition ch (x y z : Z) : Z := Z.lxor (Z.land x y) (Z.land (not32 x) z).
Definition maj (x y z : Z) : Z :=
  Z.lxor (Z.lxor (Z.land x y) (Z.land x z)) (Z.land y z).
Definition bsig0 (x : Z) : Z := Z.lxor (Z.lxor (rotr 2 x) (rotr 13 x)) (rotr 22 x).
Definition bsig1 (x : Z) : Z := Z.lxor (Z.lxor (rotr 6 x) (rotr 11 x)) (rotr 25 x).
Definition ssig0 (x : Z) : Z := Z.lxor (Z.lxor (rotr 7 x) (rotr 18 x)) (Z.shiftr x 3).
Definition ssig1 (x : Z) : Z := Z.lxor (Z.lxor (rotr 17 x) (rotr 19 x)) (Z.shiftr x 10).

(** Round constants: the fractional parts of the cube roots of the first
    sixty-four primes. *)
Definition _K : list Z :=
  [ 1116352408; 1899447441; 3049323471; 3921009573; 961987163; 1508970993;
    2453635748; 2870763221; 3624381080; 310598401; 607225278; 1426881987;
    1925078388; 2162078206; 2614888103; 3248222580; 3835390401; 4022224774;
    264347078; 604807628; 770255983; 1249150122; 1555081692; 1996064986;
    2554220882; 2821834349; 2952996808; 3210313671; 3336571891; 3584528711;
    113926993; 338241895; 666307205; 773529912; 1294757372; 1396182291;
    1695183700; 1986661051; 2177026350; 2456956037; 2730485921; 2820302411;
    3259730800; 3345764771; 3516065817; 3600352804; 4094571909; 275423344;
    430227734; 506948616; 659060556; 883997877; 958139571; 1322822218;
    1537002063; 1747873779; 1955562222; 2024104815; 2227730452; 2361852424;
    2428436474; 2756734187; 3204031479; 3329325298 ].

(** The eight working words. *)
Record digest := Digest {
  h0 : Z; h1 : Z; h2 : Z; h3 : Z; h4 : Z; h5 : Z; h6 : Z; h7 : Z
}.

(** Initial value: the fractional parts of the square roots of the first
    eight primes. *)
Definition init : digest :=
  Digest 1779033703 3144134277 1013904242 2773480762
         1359893119 2600822924 528734635 1541459225.

(** Four bytes, big endian, to a word and back. *)
Definition be32 (b0 b1 b2 b3 : Z) : Z :=
  Z.lor (Z.lor (Z.shiftl b0 24) (Z.shiftl b1 16)) (Z.lor (Z.shiftl b2 8) b3).

Definition word_bytes (w : Z) : list Z :=
  [ Z.land (Z.shiftr w 24) 255; Z.land (Z.shiftr w 16) 255;
    Z.land (Z.shiftr w 8) 255; Z.land w 255 ].

Fixpoint words (bs : list Z) : list Z :=
  match bs with
  | b0 :: b1 :: b2 :: b3 :: rest => be32 b0 b1 b2 b3 :: words rest
  | _ => []
  end.

(** Message schedule, most recent word first: [w(i)] is computed from
    [w(i-2)], [w(i-7)], [w(i-15)] and [w(i-16)]. *)
Fixpoint schedule (n : nat) (rw : list Z) : list Z :=
  match n with
  | O => rw
  | S n' =>
      let w := add32 (add32 (ssig1 (nth 1 rw 0)) (nth 6 rw 0))
                     (add32 (ssig0 (nth 14 rw 0)) (nth 15 rw 0)) in
      schedule n' (w :: rw)
  end.

Definition round (s : digest) (kw : Z * Z) : digest :=
  let t1 := add32 (add32 (add32 (h7 s) (bsig1 (h4 s)))
                         (add32 (ch (h4 s) (h5 s) (h6 s)) (fst kw))) (snd kw) in
  let t2 := add32 (bsig0 (h0 s)) (maj (h0 s) (h1 s) (h2 s)) in
  Digest (add32 t1 t2) (h0 s) (h1 s) (h2 s) (add32 (h3 s) t1) (h4 s) (h5 s) (h6 s).

(** One 64-byte chunk. *)
Definition block (s : digest) (chunk : list Z) : digest :=
  let w := rev (schedule 48 (rev (words chunk))) in
  let r := fold_left round (combine _K w) s in
  Digest (add32 (h0 s) (h0 r)) (add32 (h1 s) (h1 r)) (add32 (h2 s) (h2 r))
         (add32 (h3 s) (h3 r)) (add32 (h4 s) (h4 r)) (add32 (h5 s) (h5 r))
         (add32 (h6 s) (h6 r)) (add32 (h7 s) (h7 r)).

Fixpoint blocks (n : nat) (s : digest) (bs : list Z) : digest :=
  match n with
  | O => s
  | S n' => blocks n' (block s (firstn 64 bs)) (skipn 64 bs)
  end.

(** Padding: a single one bit, zeros up to 56 modulo 64, then the length
    of the message in bits as a 64-bit big-endian number. *)
Definition pad (len : Z) : list Z :=
  128 :: repeat 0 (Z.to_nat ((55 - len) mod 64))
      ++ word_bytes (Z.land (Z.shiftr (8 * len) 32) mask32)
      ++ word_bytes (Z.land (8 * len) mask32).

Definition byte_to_Z (b : byte) : Z := Z.of_N (Byte.to_N b).

Definition byte_of_Z (z : Z) : byte :=
  match Byte.of_N (Z.to_N (Z.land z 255)) with
  | Some b => b
  | None => x00
  end.

Definition sum (s : digest) : list byte :=
  map byte_of_Z
    (word_bytes (h0 s) ++ word_bytes (h1 s) ++ word_bytes (h2 s)
     ++ word_bytes (h3 s) ++ word_bytes (h4 s) ++ word_bytes (h5 s)
     ++ word_bytes (h6 s) ++ word_bytes (h7 s)).

Definition sha256 (msg : list byte) : list byte :=
  let len := Z.of_nat (length msg) in
  let padded := map byte_to_Z msg ++ pad len in
  sum (blocks (Nat.div (length padded) 64) init padded).

End Sha256.

Definition sha256 := Sha256.sha256.

Definition bytes_of (l : list Z) : list byte := map Sha256.byte_of_Z l.

(** ** Go values *)

(** [int64] arithmetic wraps around. *)
Definition min_int64 : Z := - 2 ^ 63.
Definition max_int64 : Z := 2 ^ 63 - 1.
Definition wrap64 (z : Z) : Z := (z + 2 ^ 63) mod 2 ^ 64 - 2 ^ 63.
Definition in_int64 (z : Z) : Prop := min_int64 <= z <= max_int64.

(** A call either returns or panics (index out of range, negative length
    given to [make]). *)
Inductive outcome (A : Type) : Type :=
| Returned (a : A)
| Panicked.
Arguments Returned {A} a.
Arguments Panicked {A}.

(** The error values that the two packages produce or pass on. *)
Inductive error : Type :=
| EOF                                       (* io.EOF *)
| ErrInvalid                                (* os.ErrInvalid *)
| ErrClosed                                 (* os.ErrClosed *)
| ErrNotExist                               (* os.ErrNotExist *)
| ErrNotDir                                 (* ENOTDIR *)
| ErrIsDir                                  (* EISDIR *)
| ErrAbs                                    (* filepath.Abs failed *)
| ErrNotRegular (name : string)             (* "%q is not a regular file" *)
| ErrCacheNotDir (dir : string)             (* "CacheDir %q is not a directory" *)
| ErrTooShort (got : Z)                     (* "Hashed block too short, ..." *)
| ErrVerification (expected got : list byte) (* "Hashed block failed verification, ..." *).

Definition len (b : list byte) : Z := Z.of_nat (length b).

(** [make([]byte, n)] for a length that is not negative. *)
Definition make (n : Z) : list byte := repeat x00 (Z.to_nat n).

(** [make([]byte, n)] in general: a negative length panics. *)
Definition make_bytes (n : Z) : outcome (list byte) :=
  if n <? 0 then Panicked else Returned (make n).

Definition zero32 : list byte := make 32.

Definition byte_eqb (a b : byte) : bool := Byte.eqb a b.

#[global] Instance byte_eq_decision : EqDecision byte := Byte.byte_eq_dec.

(** ** package decoder *)

(** The comparison loop of [Decode]: [for i := 0; i < 32; i++] with
    [clientHash[i] != hash[i]]; an index past the end of either slice
    panics. [n] counts the iterations that remain. *)
Fixpoint compareLoop (n : nat) (i : nat) (clientHash hash : list byte) : outcome bool :=
  match n with
  | O => Returned true
  | S n' =>
      match clientHash !! i, hash !! i with
      | Some c, Some h =>
          if byte_eqb c h then compareLoop n' (S i) clientHash hash
          else Returned false
      | _, _ => Panicked
      end
  end.

(** [Decode(hash, hashedBlock) (block, nextHash, err)]. *)
Definition Decode (hash hashedBlock : list byte)
  : outcome (list byte * list byte * option error) :=
  let hashOffset := len hashedBlock - 32 in
  if hashOffset <=? 0 then
    Returned ([], [], Some (ErrTooShort (len hashedBlock)))
  else
    let clientHash := sha256 hashedBlock in
    match compareLoop 32 0 clientHash hash with
    | Panicked => Panicked
    | Returned false => Returned ([], [], Some (ErrVerification hash clientHash))
    | Returned true =>
        Returned (take (Z.to_nat hashOffset) hashedBlock,
                  drop (Z.to_nat hashOffset) hashedBlock, None)
    end.

(** ** The file system seen by package encoder

    Files are found by name; the cache directory of a key, when it exists,
    holds one hash file per block index.  An open [*os.File] is a
    descriptor with the name it was opened on and an offset.  Permission
    bits and failures of the medium are outside the model: a file that is
    found can be opened, and a read returns as many bytes as the file has
    at the offset, up to the length of the buffer. *)

Inductive node : Type :=
| Regular (data : list byte)
| Irregular.

Inductive cache_node : Type :=
| CacheFile
| CacheDir (entries : gmap Z (list byte)).

Record World : Type := mkWorld {
  files : gmap string node;
  abs : string -> option string;          (* filepath.Abs *)
  cache : gmap string cache_node;         (* what is at cache/<key> *)
  handles : gmap nat (string * Z)         (* open descriptors *)
}.

Definition set_cache (w : World) (c : gmap string cache_node) : World :=
  mkWorld (files w) (abs w) c (handles w).

Definition set_handles (w : World) (h : gmap nat (string * Z)) : World :=
  mkWorld (files w) (abs w) (cache w) h.

(** [os.Open]: the new descriptor is one that is not in use. *)
Definition os_Open (w : World) (name : string) : World * option nat * option error :=
  match files w !! name with
  | None => (w, None, Some ErrNotExist)
  | Some _ =>
      let fd := fresh (dom (handles w)) in
      (set_handles w (<[fd := (name, 0)]> (handles w)), Some fd, None)
  end.

(** [File.Seek(offset, os.SEEK_SET)] *)
Definition file_Seek (w : World) (fd : nat) (offset : Z) : World * option error :=
  match handles w !! fd with
  | None => (w, Some ErrClosed)
  | Some (name, _) =>
      if offset <? 0 then (w, Some ErrInvalid)
      else (set_handles w (<[fd := (name, offset)]> (handles w)), None)
  end.

(** [File.Read(b)]: the buffer after the call and the error.  A
    buffer of length zero reads nothing and is no error; nothing left to
    read is [io.EOF]. *)
Definition file_Read (w : World) (fd : nat) (b : list byte)
  : World * list byte * option error :=
  match handles w !! fd with
  | None => (w, b, Some ErrClosed)
  | Some (name, off) =>
      match files w !! name with
      | Some (Regular data) =>
          if (length b =? 0)%nat then (w, b, None)
          else
            let got := take (length b) (drop (Z.to_nat off) data) in
            match got with
            | [] => (w, b, Some EOF)
            | _ =>
                (set_handles w (<[fd := (name, off + len got)]> (handles w)),
                 got ++ drop (length got) b, None)
            end
      | Some Irregular => (w, b, Some ErrIsDir)
      | None => (w, b, Some ErrNotExist)
      end
  end.

(** [File.Close()]: on a nil receiver it returns [os.ErrInvalid];
    on a descriptor that is closed already, [os.ErrClosed]. *)
Definition file_Close (w : World) (f : option nat) : World * option error :=
  match f with
  | None => (w, Some ErrInvalid)
  | Some fd =>
      match handles w !! fd with
      | None => (w, Some ErrClosed)
      | Some _ => (set_handles w (delete fd (handles w)), None)
      end
  end.

(** [os.ReadFile] and [os.WriteFile] on the hash file of a block index. *)
Definition os_ReadFile (w : World) (key : string) (blockIndex : Z)
  : list byte * option error :=
  match cache w !! key with
  | Some (CacheDir entries) =>
      match entries !! blockIndex with
      | Some h => (h, None)
      | None => ([], Some ErrNotExist)
      end
  | Some CacheFile => ([], Some ErrNotDir)
  | None => ([], Some ErrNotExist)
  end.

Definition os_WriteFile (w : World) (key : string) (blockIndex : Z) (data : list byte)
  : World * option error :=
  match cache w !! key with
  | Some (CacheDir entries) =>
      (set_cache w (<[key := CacheDir (<[blockIndex := data]> entries)]> (cache w)), None)
  | Some CacheFile => (w, Some ErrNotDir)
  | None => (w, Some ErrNotExist)
  end.

(** [hex.EncodeToString] *)
Definition hexdigit (n : Z) : ascii :=
  ascii_of_nat (Z.to_nat (if n <? 10 then 48 + n else 87 + n)).

Fixpoint hex_EncodeToString (b : list byte) : string :=
  match b with
  | [] => EmptyString
  | x :: rest =>
      let z := Sha256.byte_to_Z x in
      String (hexdigit (Z.shiftr z 4))
        (String (hexdigit (Z.land z 15)) (hex_EncodeToString rest))
  end.

(** [w'] is [w] up to the offset of descriptor [fd], which stays open on
    [name]. *)
Definition moved (fd : nat) (name : string) (w w' : World) : Prop :=
  files w' = files w /\ abs w' = abs w /\ cache w' = cache w /\
  (exists off, handles w' !! fd = Some (name, off)) /\
  (forall fd', fd' <> fd -> handles w' !! fd' = handles w !! fd').

(** No descriptor that is open in [w] is closed in [w']. *)
Definition keeps_open (w w' : World) : Prop :=
  forall fd, is_Some (handles w !! fd) -> is_Some (handles w' !! fd).

(** ** package encoder *)

Definition defaultBlockSize : Z := 1024.

Record Encoder : Type := mkEncoder {
  FileName : string;
  BlockSize : Z;
  cacheKey : string;
  file : option nat;                      (* nil until the first block request *)
  numBlocks : Z;
  highestBlockSize : Z
}.

Definition coerceBlockSize (e : Encoder) : Encoder :=
  if BlockSize e <=? 0 then
    mkEncoder (FileName e) defaultBlockSize (cacheKey e) (file e)
              (numBlocks e) (highestBlockSize e)
  else e.

Definition getBlockInfo (e : Encoder) (fileSize : Z) : Z * Z :=
  (wrap64 (Z.quot (wrap64 (fileSize - 1)) (BlockSize e) + 1),
   wrap64 (Z.rem (wrap64 (fileSize - 1)) (BlockSize e) + 1)).

Definition initCacheKey (e : Encoder) (w : World) : Encoder * option error :=
  match abs w (FileName e) with
  | None => (e, Some ErrAbs)
  | Some fpath =>
      (mkEncoder (FileName e) (BlockSize e)
                 (hex_EncodeToString (sha256 (list_byte_of_string fpath)))
                 (file e) (numBlocks e) (highestBlockSize e),
       None)
  end.

(** The loop of [PreProcess], [for i := e.numBlocks - 1; i >= 0; i--]:
    [k] is [i + 1], [block] the buffer of the coming read and
    [parentHash] the hash carried from the block after. *)
Fixpoint hashLoop (e : Encoder) (fd : nat) (k : nat) (block parentHash : list byte)
    (w : World) : World * option error :=
  match k with
  | O => (w, None)
  | S i =>
      match file_Seek w fd (wrap64 (BlockSize e * Z.of_nat i)) with
      | (w1, Some err) => (w1, Some err)
      | (w1, None) =>
          match file_Read w1 fd block with
          | (w2, _, Some err) => (w2, Some err)
          | (w2, block1, None) =>
              let block2 := block1 ++ parentHash in
              let parentHash' := sha256 block2 in
              match os_WriteFile w2 (cacheKey e) (Z.of_nat i) parentHash' with
              | (w3, Some err) => (w3, Some err)
              | (w3, None) =>
                  hashLoop e fd i (make (BlockSize e)) parentHash' w3
              end
          end
      end
  end.

(** [Encoder.PreProcess]: the encoder with its block counts and key,
    the file system afterwards and the error returned.  Once the file is
    open, the deferred function assigns the result of [f.Close()] to the
    returned error. *)
Definition PreProcess (e : Encoder) (w : World) : Encoder * World * option error :=
  match files w !! FileName e with
  | None => (e, w, Some ErrNotExist)
  | Some Irregular => (e, w, Some (ErrNotRegular (FileName e)))
  | Some (Regular data) =>
      let e1 := coerceBlockSize e in
      let '(nb, hbs) := getBlockInfo e1 (len data) in
      let e2 := mkEncoder (FileName e1) (BlockSize e1) (cacheKey e1) (file e1) nb hbs in
      match initCacheKey e2 w with
      | (e3, Some err) => (e3, w, Some err)
      | (e3, None) =>
          match cache w !! cacheKey e3 with
          | Some (CacheDir _) => (e3, w, None)
          | Some CacheFile => (e3, w, Some (ErrCacheNotDir (cacheKey e3)))
          | None =>
              let w1 := set_cache w (<[cacheKey e3 := CacheDir ∅]> (cache w)) in
              match os_Open w1 (FileName e3) with
              | (w2, Some fd, _) =>
                  let block := make (highestBlockSize e3) in
                  let parentHash := make 32 in
                  let '(w3, _) :=
                    hashLoop e3 fd (Z.to_nat (numBlocks e3)) block parentHash w2 in
                  let '(w4, err) := file_Close w3 (Some fd) in
                  (e3, w4, err)
              | (w2, None, err) => (e3, w2, err)
              end
          end
      end
  end.

Definition set_file (e : Encoder) (f : option nat) : Encoder :=
  mkEncoder (FileName e) (BlockSize e) (cacheKey e) f (numBlocks e) (highestBlockSize e).

(** [Encoder.Request]: the encoder and file system afterwards, the
    bytes returned and the error. *)
Definition Request (e : Encoder) (w : World) (requestNumber : Z)
  : outcome (Encoder * World * (list byte * option error)) :=
  if requestNumber =? 0 then
    Returned (e, w, os_ReadFile w (cacheKey e) requestNumber)
  else
    let blockIndex := wrap64 (requestNumber - 1) in
    if numBlocks e <=? blockIndex then Returned (e, w, ([], Some EOF))
    else
      let '(w1, f, oerr) :=
        match file e with
        | None => os_Open w (FileName e)
        | Some fd => (w, Some fd, None)
        end in
      let e1 := set_file e f in
      match f with
      | None => Returned (e1, w1, ([], oerr))
      | Some fd =>
          match file_Seek w1 fd (wrap64 (BlockSize e * blockIndex)) with
          | (w2, Some err) => Returned (e1, w2, ([], Some err))
          | (w2, None) =>
              let readSize :=
                if blockIndex =? wrap64 (numBlocks e - 1) then highestBlockSize e
                else BlockSize e in
              match make_bytes readSize with
              | Panicked => Panicked
              | Returned block =>
                  match file_Read w2 fd block with
                  | (w3, block1, Some err) => Returned (e1, w3, (block1, Some err))
                  | (w3, block1, None) =>
                      if negb (blockIndex =? wrap64 (numBlocks e - 1)) then
                        match os_ReadFile w3 (cacheKey e) requestNumber with
                        | (_, Some err) => Returned (e1, w3, (block1, Some err))
                        | (hash, None) => Returned (e1, w3, (block1 ++ hash, None))
                        end
                      else Returned (e1, w3, (block1 ++ make 32, None))
                  end
              end
          end
      end.

(** [Encoder.Close] *)
Definition Close (e : Encoder) (w : World) : outcome (World * option error) :=
  Returned (file_Close w (file e)).

(** ** Clients of the encoder *)

(** Requests made one after the other on the same encoder, as the loops
    of [Stream] and of the tests make them. *)
Fixpoint serve (e : Encoder) (w : World) (requests : list Z)
  : outcome (Encoder * World * list (list byte * option error)) :=
  match requests with
  | [] => Returned (e, w, [])
  | n :: rest =>
      match Request e w n with
      | Panicked => Panicked
      | Returned (e1, w1, r) =>
          match serve e1 w1 rest with
          | Panicked => Panicked
          | Returned (e2, w2, rs) => Returned (e2, w2, r :: rs)
          end
      end
  end.

(** Each response is decoded against the hash trusted so far, and the
    hash it carries is trusted for the next one; the blocks are collected
    in order.  [None] when a request or a verification fails. *)
Fixpoint verified (e : Encoder) (w : World) (trusted : list byte) (requests : list Z)
  : option (list (list byte)) :=
  match requests with
  | [] => Some []
  | n :: rest =>
      match Request e w n with
      | Returned (e1, w1, (hashedBlock, None)) =>
          match Decode trusted hashedBlock with
          | Returned (block, nextHash, None) =>
              match verified e1 w1 nextHash rest with
              | Some blocks => Some (block :: blocks)
              | None => None
              end
          | _ => None
          end
      | _ => None
      end
  end.

(** Request 0 gives the hash to trust first; requests [1 .. last] follow. *)
Definition round_trip (e : Encoder) (w : World) (last : Z) : option (list (list byte)) :=
  match Request e w 0 with
  | Returned (e1, w1, (root, None)) => verified e1 w1 root (seqZ 1 last)
  | _ => None
  end.

(** The loop of [Stream] in main.go, [for i := int64(1); ...; i++]: each
    block requested is decoded against [hash] and appended to the output
    file; the loop ends at the first error of a request or of the
    verifier. [fuel] bounds the iterations; the result is the output
    written, the error of the last request and the error of the verifier. *)
Fixpoint streamLoop (fuel : nat) (e : Encoder) (w : World) (i : Z) (hash out : list byte)
  : option (outcome (Encoder * World * list byte * option error * option error)) :=
  match fuel with
  | O => None
  | S fuel' =>
      match Request e w i with
      | Panicked => Some Panicked
      | Returned (e1, w1, (_, Some reqErr)) =>
          Some (Returned (e1, w1, out, Some reqErr, None))
      | Returned (e1, w1, (hashedBlock, None)) =>
          match Decode hash hashedBlock with
          | Panicked => Some Panicked
          | Returned (_, _, Some decodeErr) =>
              Some (Returned (e1, w1, out, None, Some decodeErr))
          | Returned (block, nextHash, None) =>
              streamLoop fuel' e1 w1 (wrap64 (i + 1)) nextHash (out ++ block)
          end
      end
  end.

(** [Stream]: the error of [PreProcess] is printed and the stream goes on;
    request 0 gives the first hash. *)
Definition Stream (fuel : nat) (e : Encoder) (w : World)
  : option (outcome (Encoder * World * list byte * option error * option error)) :=
  let '(e0, w0, _) := PreProcess e w in
  match Request e0 w0 0 with
  | Panicked => Some Panicked
  | Returned (e1, w1, (_, Some reqErr)) => Some (Returned (e1, w1, [], Some reqErr, None))
  | Returned (e1, w1, (hash, None)) => streamLoop fuel e1 w1 1 hash []
  end.


(** ** The chain, in the words of the specification *)

(** Block [i] of a file: [blockSize] bytes from offset [blockSize * i], or
    what is left of the file there. *)
Definition file_block (data : list byte) (blockSize i : Z) : list byte :=
  take (Z.to_nat blockSize) (drop (Z.to_nat (blockSize * i)) data).

(** The chain hash of the block that is [d] blocks before the last one:
    [hash(numBlocks-1) = SHA256(block[numBlocks-1] || zero32)] and
    [hash(i) = SHA256(block[i] || hash(i+1))]. *)
Fixpoint chain_back (data : list byte) (blockSize numBlocks : Z) (d : nat) : list byte :=
  match d with
  | O => sha256 (file_block data blockSize (numBlocks - 1) ++ zero32)
  | S d' =>
      sha256 (file_block data blockSize (numBlocks - 1 - Z.of_nat d)
              ++ chain_back data blockSize numBlocks d')
  end.

Definition chain_hash (data : list byte) (blockSize numBlocks i : Z) : list byte :=
  chain_back data blockSize numBlocks (Z.to_nat (numBlocks - 1 - i)).

(** What the consumer protocol expects of request [n], for a file of
    [numBlocks] blocks. *)
Definition response (data : list byte) (blockSize numBlocks n : Z)
  : list byte * option error :=
  if n =? 0 then (chain_hash data blockSize numBlocks 0, None)
  else if n <? numBlocks then
    (file_block data blockSize (n - 1) ++ chain_hash data blockSize numBlocks n, None)
  else if n =? numBlocks then
    (file_block data blockSize (n - 1) ++ zero32, None)
  else ([], Some EOF).

(** The block counts of a file: either there is no block at all, or the
    blocks before the last are full and the last one holds the rest. *)
Definition geometry (size blockSize nb hbs : Z) : Prop :=
  0 < blockSize /\ 0 <= hbs <= blockSize /\
  ((nb = 0 /\ size = 0) \/ (1 <= nb /\ blockSize * (nb - 1) + hbs = size)).

(** The hash to trust once [i] blocks are verified: the chain hash of block
    [i], and 32 zero bytes after the last block. *)
Definition trusted_after (data : list byte) (blockSize numBlocks i : Z) : list byte :=
  if i =? numBlocks then zero32 else chain_hash data blockSize numBlocks i.

(** ** An encoder ready to serve

    The state in which [PreProcess] leaves an encoder and the file system
    for a file with at least one block: the counts describe the file, the
    cache holds the chain, and the file of the encoder, once opened, is
    an open descriptor on the file. *)
Definition ready (data : list byte) (e : Encoder) (w : World) : Prop :=
  files w !! FileName e = Some (Regular data) /\
  len data <= max_int64 /\
  0 < BlockSize e /\ 0 <= highestBlockSize e <= BlockSize e /\
  1 <= numBlocks e /\
  BlockSize e * (numBlocks e - 1) + highestBlockSize e = len data /\
  (exists entries,
     cache w !! cacheKey e = Some (CacheDir entries) /\
     forall i, 0 <= i < numBlocks e ->
       entries !! i = Some (chain_hash data (BlockSize e) (numBlocks e) i)) /\
  (forall fd, file e = Some fd -> exists off, handles w !! fd = Some (FileName e, off)).

(** ** Sample files *)

Definition sample_world (data : list byte) : World :=
  mkWorld {[ "testdata/test_0"%string := Regular data ]}
          (fun name => Some ("/srv/"%string +:+ name)) ∅ ∅.

Definition sample_encoder (blockSize : Z) : Encoder :=
  mkEncoder "testdata/test_0" blockSize "" None 0 0.

Definition five_bytes : list byte := [x01; x02; x03; x04; x05].

(** A file of 10240 bytes. *)
Definition ten_blocks : list byte := repeat x2a (Z.to_nat 10240).

(** ** What [Stream] prints when its loop has ended

    The loop of [Stream] declares a [reqErr] of its own with [:=], so the
    [reqErr] tested after the loop is still the error of request 0. *)

Inductive message : Type :=
| Success                                   (* "Success: end of stream" *)
| ErrorMessage (err : option error)         (* "Error: %v" *).

Definition report (reqErr decodeErr : option error) : list message :=
  match reqErr with
  | Some EOF => [Success]
  | Some err => [ErrorMessage (Some err)]
  | None => []
  end ++
  match decodeErr with
  | Some _ => [ErrorMessage reqErr]
  | None => []
  end.

(** The lines that [Stream] itself prints: the error of [PreProcess], if
    any, and the report after the loop. *)
Definition Stream_report (fuel : nat) (e : Encoder) (w : World)
  : option (outcome (list message)) :=
  let '(e0, w0, err) := PreProcess e w in
  let first :=
    match err with
    | Some _ => [ErrorMessage err]
    | None => []
    end in
  match Request e0 w0 0 with
  | Panicked => Some Panicked
  | Returned (e1, w1, (_, Some reqErr)) =>
      Some (Returned (first ++ report (Some reqErr) None))
  | Returned (e1, w1, (hash, None)) =>
      match streamLoop fuel e1 w1 1 hash [] with
      | None => None
      | Some Panicked => Some Panicked
      | Some (Returned (_, _, _, _, decodeErr)) =>
          Some (Returned (first ++ report None decodeErr))
      end
  end.

(** ** The first encoder

    The encoder that hashes just in time, one block per request, kept in
    the repository beside the one above. *)

Module Encoder0.

Record Encoder : Type := mkEncoder {
  FileName : string;
  BlockSize : Z;
  finished : bool;
  file : option nat;
  nextBlock : list byte                   (* nil is the empty list *)
}.

(** [Encoder.Request]. [sha256.New().Sum(b)] appends to [b] the digest of
    what was written to the hash, which is nothing. *)
Definition Request (e : Encoder) (w : World)
  : Encoder * World * (list byte * option error) :=
  if finished e then
    (mkEncoder (FileName e) (BlockSize e) (finished e) (file e) [],
     w, (nextBlock e, Some EOF))
  else
    let '(w1, f, oerr) :=
      match file e with
      | None => os_Open w (FileName e)
      | Some fd => (w, Some fd, None)
      end in
    match f with
    | None =>
        (mkEncoder (FileName e) (BlockSize e) (finished e) None (nextBlock e),
         w1, ([], oerr))
    | Some fd =>
        let returnBlock := nextBlock e ++ (nextBlock e ++ sha256 []) in
        let blockSize :=
          if BlockSize e <=? 0 then defaultBlockSize else BlockSize e in
        match file_Read w1 fd (make blockSize) with
        | (w2, block, Some EOF) =>
            let '(w3, _) := file_Close w2 (Some fd) in
            (mkEncoder (FileName e) blockSize true (Some fd) block,
             w3, (returnBlock, None))
        | (w2, block, err) =>
            (mkEncoder (FileName e) blockSize (finished e) (Some fd) block,
             w2, (returnBlock, err))
        end
    end.

(** [Encoder.IsFinished] *)
Definition IsFinished (e : Encoder) : bool := finished e.

(** [Encoder.Close] *)
Definition Close (e : Encoder) (w : World) : Encoder * World * option error :=
  let '(w1, err) := file_Close w (file e) in
  (mkEncoder (FileName e) (BlockSize e) true (file e) (nextBlock e), w1, err).

(** [n] requests one after the other, with what each returned. *)
Fixpoint requests (n : nat) (e : Encoder) (w : World)
  : Encoder * World * list (list byte * option error) :=
  match n with
  | O => (e, w, [])
  | S n' =>
      let '(e1, w1, r) := Request e w in
      let '(e2, w2, rs) := requests n' e1 w1 in
      (e2, w2, r :: rs)
  end.

End Encoder0.

(** Block [i] of a file in a buffer of [blockSize] bytes: the bytes read,
    then the zero bytes that [make] left in the rest of the buffer. *)
Definition padded_block (data : list byte) (blockSize i : Z) : list byte :=
  let got := file_block data blockSize i in
  got ++ make (blockSize - len got).

(** ** More samples *)

(** The characters of [hex.EncodeToString]: "0123456789abcdef". *)
Definition is_hexdigit (c : ascii) : bool :=
  let n := Z.of_nat (nat_of_ascii c) in
  ((48 <=? n) && (n <=? 57)) || ((97 <=? n) && (n <=? 102)).

(** The cache key of the sample file, and a file system in which its
    cache directory exists and is empty. *)
Definition sample_key : string :=
  hex_EncodeToString (sha256 (list_byte_of_string "/srv/testdata/test_0")).

Definition stale_world (data : list byte) : World :=
  mkWorld {[ "testdata/test_0"%string := Regular data ]}
          (fun name => Some ("/srv/"%string +:+ name))
          {[ sample_key := CacheDir ∅ ]} ∅.

(** * Properties *)

(** ** The digest *)

Lemma sha256_length (msg : list byte) : length (sha256 msg) = 32%nat.
Proof. reflexivity. Qed.

(** Known answers: the digests of the empty message and of "abc". *)
Example sha256_empty :
  map Sha256.byte_to_Z (sha256 []) =
  [227; 176; 196; 66; 152; 252; 28; 20; 154; 251; 244; 200; 153; 111; 185; 36;
   39; 174; 65; 228; 100; 155; 147; 76; 164; 149; 153; 27; 120; 82; 184; 85].
Proof. vm_compute. reflexivity. Qed.

Example sha256_abc :
  map Sha256.byte_to_Z (sha256 (bytes_of [97; 98; 99])) =
  [186; 120; 22; 191; 143; 1; 207; 234; 65; 65; 64; 222; 93; 174; 34; 35;
   176; 3; 97; 163; 150; 23; 122; 156; 180; 16; 255; 97; 242; 0; 21; 173].
Proof. vm_compute. reflexivity. Qed.

Arguments sha256 : simpl never.
#[global] Opaque sha256.

Lemma byte_eqb_true (a b : byte) : byte_eqb a b = true <-> a = b.
Proof.
  split; [apply Byte.byte_dec_bl | apply Byte.byte_dec_lb].
Qed.

Lemma byte_eqb_false (a b : byte) : byte_eqb a b = false <-> a <> b.
Proof.
  split.
  - apply Byte.eqb_false.
  - intros Hne. destruct (byte_eqb a b) eqn:E; [|reflexivity].
    apply byte_eqb_true in E. contradiction.
Qed.

(** ** The comparison loop *)

Section CompareLoop.

Variables clientHash hash : list byte.

(** The loop answers [true] exactly when both slices have, and agree on,
    every position it visits. *)
Lemma compareLoop_true (n i : nat) :
  compareLoop n i clientHash hash = Returned true <->
  (forall j, (i <= j < i + n)%nat ->
     exists b, clientHash !! j = Some b /\ hash !! j = Some b).
Proof.
  revert i. induction n as [|n IH]; intros i; simpl.
  - split; [intros _ j Hj; lia | reflexivity].
  - destruct (clientHash !! i) as [c|] eqn:Ec, (hash !! i) as [h|] eqn:Eh.
    + destruct (byte_eqb c h) eqn:E.
      * apply byte_eqb_true in E. subst h. rewrite IH. split.
        -- intros H j Hj. destruct (decide (j = i)) as [->|Hne].
           ++ exists c. split; assumption.
           ++ apply H. lia.
        -- intros H j Hj. apply H. lia.
      * apply byte_eqb_false in E. split; [discriminate|].
        intros H. destruct (H i) as (b & Hb1 & Hb2); [lia|]. congruence.
    + split; [discriminate|].
      intros H. destruct (H i) as (b & Hb1 & Hb2); [lia|]. congruence.
    + split; [discriminate|].
      intros H. destruct (H i) as (b & Hb1 & Hb2); [lia|]. congruence.
    + split; [discriminate|].
      intros H. destruct (H i) as (b & Hb1 & Hb2); [lia|]. congruence.
Qed.

(** It panics exactly when it runs off the end of [hash] before it has
    met a difference. *)
Lemma compareLoop_panic (n i : nat) :
  (i + n <= length clientHash)%nat -> (i <= length hash)%nat ->
  compareLoop n i clientHash hash = Panicked <->
  ((length hash < i + n)%nat /\
   forall j, (i <= j < length hash)%nat -> clientHash !! j = hash !! j).
Proof.
  revert i. induction n as [|n IH]; intros i Hc Hh; simpl.
  - split; [discriminate | intros [? _]; lia].
  - destruct (lookup_lt_is_Some_2 clientHash i) as [c Ec]; [lia|]. rewrite Ec.
    destruct (hash !! i) as [h|] eqn:Eh.
    + pose proof (lookup_lt_Some _ _ _ Eh) as Hlt.
      destruct (byte_eqb c h) eqn:E.
      * apply byte_eqb_true in E. subst h.
        rewrite IH by lia. split.
        -- intros [H1 H2]. split; [lia|].
           intros j Hj. destruct (decide (j = i)) as [->|Hne]; [congruence|].
           apply H2. lia.
        -- intros [H1 H2]. split; [lia|]. intros j Hj. apply H2. lia.
      * apply byte_eqb_false in E. split; [discriminate|].
        intros [_ H]. specialize (H i ltac:(lia)). congruence.
    + apply lookup_ge_None in Eh. split; [|reflexivity].
      intros _. split; [lia|]. intros j Hj. lia.
Qed.

(** With 32 bytes on either side the loop is a decision of equality. *)
Lemma compareLoop_32 :
  length clientHash = 32%nat -> length hash = 32%nat ->
  compareLoop 32 0 clientHash hash = Returned true /\ clientHash = hash \/
  compareLoop 32 0 clientHash hash = Returned false /\
    exists i, (i < 32)%nat /\ clientHash !! i <> hash !! i.
Proof.
  intros Hc Hh.
  destruct (compareLoop 32 0 clientHash hash) as [[|]|] eqn:E.
  - left. split; [reflexivity|].
    pose proof (proj1 (compareLoop_true 32 0) E) as E'.
    apply list_eq. intros j.
    destruct (decide (j < 32)%nat) as [Hj|Hj].
    + destruct (E' j) as (b & -> & ->); [lia|reflexivity].
    + rewrite !lookup_ge_None_2 by lia. reflexivity.
  - right. split; [reflexivity|].
    destruct (decide (clientHash = hash)) as [Heq|Hne].
    + exfalso. assert (compareLoop 32 0 clientHash hash = Returned true) as E'.
      { apply compareLoop_true. intros j Hj. subst hash.
        destruct (lookup_lt_is_Some_2 clientHash j) as [b Hb]; [lia|].
        exists b. split; assumption. }
      congruence.
    + destruct (decide (Forall (fun j => clientHash !! j = hash !! j) (seq 0 32)))
        as [Hall|Hex].
      * exfalso. apply Hne. apply list_eq. intros j.
        destruct (decide (j < 32)%nat) as [Hj|Hj].
        -- rewrite Forall_forall in Hall. apply Hall. apply elem_of_seq. lia.
        -- rewrite !lookup_ge_None_2 by lia. reflexivity.
      * apply not_Forall_Exists in Hex; [|intros j; apply _].
        apply Exists_exists in Hex. destruct Hex as (j & Hj & Hd).
        apply elem_of_seq in Hj. exists j. split; [lia|exact Hd].
  - exfalso. apply (proj1 (compareLoop_panic 32 0 ltac:(lia) ltac:(lia))) in E. lia.
Qed.

End CompareLoop.

(** ** The verifier *)

Lemma len_nonneg (b : list byte) : 0 <= len b.
Proof. unfold len. lia. Qed.

Lemma Decode_too_short (hash candidate : list byte) :
  len candidate <= 32 ->
  Decode hash candidate = Returned ([], [], Some (ErrTooShort (len candidate))).
Proof.
  intros H. unfold Decode.
  destruct (len candidate - 32 <=? 0) eqn:E; [reflexivity|].
  apply Z.leb_gt in E. lia.
Qed.

Lemma Decode_long (hash candidate : list byte) :
  32 < len candidate ->
  Decode hash candidate =
    match compareLoop 32 0 (sha256 candidate) hash with
    | Panicked => Panicked
    | Returned false =>
        Returned ([], [], Some (ErrVerification hash (sha256 candidate)))
    | Returned true =>
        Returned (take (length candidate - 32) candidate,
                  drop (length candidate - 32) candidate, None)
    end.
Proof.
  intros H. unfold Decode.
  destruct (len candidate - 32 <=? 0) eqn:E.
  - apply Z.leb_le in E. lia.
  - replace (Z.to_nat (len candidate - 32)) with (length candidate - 32)%nat
      by (unfold len; lia).
    reflexivity.
Qed.

(** A candidate whose digest is the trusted hash is accepted and split
    32 bytes before its end. *)
Lemma Decode_accepts (candidate : list byte) :
  32 < len candidate ->
  Decode (sha256 candidate) candidate =
    Returned (take (length candidate - 32) candidate,
              drop (length candidate - 32) candidate, None).
Proof.
  intros H. rewrite Decode_long by assumption.
  destruct (compareLoop_32 (sha256 candidate) (sha256 candidate)
              (sha256_length _) (sha256_length _))
    as [[-> _]|[_ (i & _ & Hi)]]; [reflexivity|congruence].
Qed.


(** C3. With a trusted hash of 32 bytes, [Decode] fails with the too-short
    error exactly when the candidate has at most 32 bytes; for a longer
    candidate it fails verification exactly when the digest of the
    candidate differs from the trusted hash at one of the 32 positions; and
    when no position differs it returns the candidate without its last 32
    bytes as the block and these 32 bytes as the next hash. *)
Theorem Decode_spec (hash candidate : list byte) :
  length hash = 32%nat ->
  ((exists n, Decode hash candidate = Returned ([], [], Some (ErrTooShort n)))
     <-> len candidate <= 32) /\
  (32 < len candidate ->
     ((exists a b, Decode hash candidate = Returned ([], [], Some (ErrVerification a b)))
        <-> exists i, (i < 32)%nat /\ sha256 candidate !! i <> hash !! i) /\
     ((forall i, (i < 32)%nat -> sha256 candidate !! i = hash !! i) ->
        Decode hash candidate =
          Returned (take (length candidate - 32) candidate,
                    drop (length candidate - 32) candidate, None) /\
        length (drop (length candidate - 32) candidate) = 32%nat /\
        take (length candidate - 32) candidate
          ++ drop (length candidate - 32) candidate = candidate)).
Proof.
  intros Hh. split; [split|].
  - intros [n Hn]. destruct (Z_le_gt_dec (len candidate) 32) as [|Hgt]; [assumption|].
    exfalso. rewrite Decode_long in Hn by lia.
    destruct (compareLoop 32 0 (sha256 candidate) hash) as [[|]|]; discriminate.
  - intros Hle. exists (len candidate). apply Decode_too_short. assumption.
  - intros Hlong. rewrite Decode_long by assumption.
    destruct (compareLoop_32 (sha256 candidate) hash (sha256_length _) Hh)
      as [[-> Heq]|[-> Hex]].
    + split; [split|].
      * intros (a & b & Hab). discriminate.
      * intros (i & _ & Hi). congruence.
      * intros _. split; [reflexivity|]. split.
        -- rewrite length_drop. unfold len in Hlong. lia.
        -- apply take_drop.
    + split; [split|].
      * intros _. exact Hex.
      * intros _. eauto.
      * intros Hall. destruct Hex as (i & Hi & Hd). destruct (Hd (Hall i Hi)).
Qed.

(** A hash shorter than 32 bytes makes the loop run off its end, unless a
    byte differs before. *)
Lemma Decode_short_hash_cases (hash candidate : list byte) :
  32 < len candidate -> (length hash < 32)%nat ->
  (take (length hash) (sha256 candidate) = hash /\
     Decode hash candidate = Panicked) \/
  (take (length hash) (sha256 candidate) <> hash /\
     Decode hash candidate =
       Returned ([], [], Some (ErrVerification hash (sha256 candidate)))).
Proof.
  intros Hlong Hshort. rewrite Decode_long by assumption.
  pose proof (sha256_length candidate) as Hc.
  pose proof (compareLoop_panic (sha256 candidate) hash 32 0
                ltac:(lia) ltac:(lia)) as Hp.
  pose proof (compareLoop_true (sha256 candidate) hash 32 0) as Ht.
  assert (take (length hash) (sha256 candidate) = hash <->
          forall j, (0 <= j < length hash)%nat -> sha256 candidate !! j = hash !! j)
    as Hpre.
  { split.
    - intros Heq j Hj.
      rewrite <- (lookup_take_lt (sha256 candidate) (length hash) j) by lia.
      rewrite Heq. reflexivity.
    - intros Hall. apply list_eq. intros j.
      destruct (decide (j < length hash)%nat) as [Hj|Hj].
      + rewrite lookup_take_lt by lia. apply Hall. lia.
      + rewrite lookup_take_ge by lia. rewrite lookup_ge_None_2 by lia. reflexivity. }
  destruct (compareLoop 32 0 (sha256 candidate) hash) as [[|]|] eqn:E.
  - exfalso. destruct (proj1 Ht eq_refl (length hash)) as (b & _ & Hb); [lia|].
    apply lookup_lt_Some in Hb. lia.
  - right. split; [|reflexivity].
    intros Heq. pose proof (proj1 Hpre Heq) as Hall.
    assert (@Returned bool false = Panicked) as Habs
      by (apply (proj2 Hp); split; [lia|exact Hall]).
    discriminate.
  - left. split; [|reflexivity]. apply (proj2 Hpre). apply (proj1 Hp). reflexivity.
Qed.

(** C9, as the code has it. For a candidate longer than 32 bytes and a
    trusted hash shorter than 32 bytes, [Decode] panics exactly when the
    trusted hash is a prefix of the digest of the candidate (always so for
    an empty hash); when a byte of the trusted hash differs from the
    digest, the loop returns the verification error before it reaches the
    end of the hash. *)
Theorem Decode_short_hash (hash candidate : list byte) :
  32 < len candidate -> (length hash < 32)%nat ->
  (Decode hash candidate = Panicked
     <-> take (length hash) (sha256 candidate) = hash) /\
  (Decode hash candidate =
     Returned ([], [], Some (ErrVerification hash (sha256 candidate)))
     <-> take (length hash) (sha256 candidate) <> hash) /\
  (hash = [] -> Decode hash candidate = Panicked).
Proof.
  intros Hlong Hshort.
  destruct (Decode_short_hash_cases hash candidate Hlong Hshort)
    as [[Hp HD]|[Hp HD]]; rewrite HD.
  - split; [|split].
    + split; auto.
    + split; [discriminate|]. intros Hne. contradiction.
    + reflexivity.
  - split; [|split].
    + split; [discriminate|]. intros Heq. contradiction.
    + split; auto.
    + intros ->. simpl in Hp. rewrite take_0 in Hp. contradiction.
Qed.

(** A candidate of 33 bytes and its digest. *)
Lemma Decode_spec_witness :
  length (sha256 (repeat x00 33)) = 32%nat /\
  Decode (sha256 (repeat x00 33)) (repeat x00 33) = Returned ([x00], repeat x00 32, None).
Proof.
  split; [apply sha256_length|].
  apply (Decode_spec (sha256 (repeat x00 33)) (repeat x00 33) (sha256_length _)).
  - vm_compute. reflexivity.
  - intros i _. reflexivity.
Defined.

(** A trusted hash of one byte that is the first byte of the digest. *)
Lemma Decode_short_hash_witness :
  32 < len (repeat x00 33) /\ (length [x7f] < 32)%nat /\
  Decode [x7f] (repeat x00 33) = Panicked.
Proof.
  assert (32 < len (repeat x00 33)) as H1 by (vm_compute; reflexivity).
  assert (length [x7f] < 32)%nat as H2 by (simpl; lia).
  split; [exact H1|]. split; [exact H2|].
  apply (proj2 (proj1 (Decode_short_hash [x7f] (repeat x00 33) H1 H2))).
  vm_compute. reflexivity.
Defined.

(** A trusted hash of one byte that is not the first byte of the digest:
    the call returns the verification error and does not panic. *)
Lemma Decode_short_hash_counterexample :
  32 < len (repeat x00 33) /\ (length [x00] < 32)%nat /\
  Decode [x00] (repeat x00 33) =
    Returned ([], [], Some (ErrVerification [x00] (sha256 (repeat x00 33)))) /\
  Decode [x00] (repeat x00 33) <> Panicked.
Proof.
  split; [vm_compute; reflexivity|]. split; [simpl; lia|].
  assert (Decode [x00] (repeat x00 33) =
    Returned ([], [], Some (ErrVerification [x00] (sha256 (repeat x00 33))))) as H
    by (vm_compute; reflexivity).
  split; [exact H|]. rewrite H. discriminate.
Qed.

(** ** Block counts *)

Lemma wrap64_id (z : Z) : in_int64 z -> wrap64 z = z.
Proof.
  unfold in_int64, min_int64, max_int64, wrap64. intros H.
  rewrite Z.mod_small by lia. lia.
Qed.

Lemma getBlockInfo_nonempty (e : Encoder) (fileSize : Z) :
  1 <= fileSize <= max_int64 -> 0 < BlockSize e ->
  getBlockInfo e fileSize =
    ((fileSize - 1) / BlockSize e + 1, (fileSize - 1) mod BlockSize e + 1).
Proof.
  intros Hs Hb. unfold getBlockInfo.
  assert (in_int64 (fileSize - 1)) as H1
    by (unfold in_int64, min_int64, max_int64 in *; lia).
  rewrite (wrap64_id _ H1).
  rewrite Z.quot_div_nonneg by lia. rewrite Z.rem_mod_nonneg by lia.
  pose proof (Z.mod_pos_bound (fileSize - 1) (BlockSize e) Hb) as Hm.
  pose proof (Z.div_pos (fileSize - 1) (BlockSize e) ltac:(lia) Hb) as Hd0.
  assert ((fileSize - 1) / BlockSize e <= fileSize - 1) as Hd
    by (apply Z.div_le_upper_bound; nia).
  pose proof (Z.mod_le (fileSize - 1) (BlockSize e) ltac:(lia) Hb) as Hm'.
  rewrite !wrap64_id; [reflexivity| |];
    unfold in_int64, min_int64, max_int64 in *; lia.
Qed.

Lemma getBlockInfo_empty (e : Encoder) :
  1 < BlockSize e -> getBlockInfo e 0 = (1, 0).
Proof.
  intros Hb. unfold getBlockInfo.
  assert (wrap64 (0 - 1) = -1) as -> by reflexivity.
  change (-1) with (- (1)).
  rewrite Z.quot_opp_l by lia. rewrite Z.rem_opp_l by lia.
  rewrite Z.quot_small by lia. rewrite Z.rem_small by lia.
  reflexivity.
Qed.

Lemma getBlockInfo_empty_1 (e : Encoder) :
  BlockSize e = 1 -> getBlockInfo e 0 = (0, 1).
Proof. intros Hb. unfold getBlockInfo. rewrite Hb. reflexivity. Qed.

Lemma getBlockInfo_geometry (e : Encoder) (fileSize : Z) :
  0 <= fileSize <= max_int64 -> 0 < BlockSize e ->
  geometry fileSize (BlockSize e)
           (fst (getBlockInfo e fileSize)) (snd (getBlockInfo e fileSize)).
Proof.
  intros Hs Hb. unfold geometry.
  destruct (Z.eq_dec fileSize 0) as [->|Hne].
  - destruct (Z.eq_dec (BlockSize e) 1) as [H1|H1].
    + rewrite getBlockInfo_empty_1 by assumption. simpl. lia.
    + rewrite getBlockInfo_empty by lia. simpl. lia.
  - rewrite getBlockInfo_nonempty by lia. simpl.
    pose proof (Z.mod_pos_bound (fileSize - 1) (BlockSize e) Hb) as Hm.
    pose proof (Z.div_pos (fileSize - 1) (BlockSize e) ltac:(lia) Hb) as Hd0.
    pose proof (Z.div_mod (fileSize - 1) (BlockSize e) ltac:(lia)) as Hdm.
    split; [lia|]. split; [lia|]. right. split; [lia|].
    replace ((fileSize - 1) / BlockSize e + 1 - 1) with ((fileSize - 1) / BlockSize e)
      by lia.
    lia.
Qed.

(** For a file that is not empty the counts are the ones of the data
    model: [numBlocks = floor((fileSize-1)/blockSize) + 1], at least 1,
    and the last block has [((fileSize-1) mod blockSize) + 1] bytes, more
    than none and at most [blockSize]. *)
Lemma getBlockInfo_bounds (e : Encoder) (fileSize : Z) :
  1 <= fileSize <= max_int64 -> 0 < BlockSize e ->
  let '(nb, hbs) := getBlockInfo e fileSize in
  nb = (fileSize - 1) / BlockSize e + 1 /\ 1 <= nb /\
  hbs = (fileSize - 1) mod BlockSize e + 1 /\ 0 < hbs <= BlockSize e.
Proof.
  intros Hs Hb. rewrite getBlockInfo_nonempty by assumption.
  pose proof (Z.mod_pos_bound (fileSize - 1) (BlockSize e) Hb) as Hm.
  pose proof (Z.div_pos (fileSize - 1) (BlockSize e) ltac:(lia) Hb) as Hd0.
  repeat split; lia.
Qed.

(** C5, at the input where the code leaves it. For an empty file and the
    default block size, [getBlockInfo] answers one block whose length is
    zero: the last block's length is not in (0, blockSize], against the
    comment "always > 0" of the code, and the count is not
    [floor((fileSize-1)/blockSize) + 1], which is 0 here. With a block
    size of 1 it answers no block at all. *)
Theorem getBlockInfo_empty_file :
  getBlockInfo (sample_encoder 1024) 0 = (1, 0) /\
  (0 - 1) / 1024 + 1 = 0 /\
  getBlockInfo (sample_encoder 1) 0 = (0, 1).
Proof. repeat split. Qed.

(** ** Closing *)

Lemma file_Close_nil (w : World) : file_Close w None = (w, Some ErrInvalid).
Proof. reflexivity. Qed.

Lemma coerceBlockSize_file (e : Encoder) : file (coerceBlockSize e) = file e.
Proof. unfold coerceBlockSize. destruct (BlockSize e <=? 0); reflexivity. Qed.

Lemma initCacheKey_file (e : Encoder) (w : World) :
  file (fst (initCacheKey e w)) = file e.
Proof. unfold initCacheKey. destruct (abs w (FileName e)); reflexivity. Qed.

Lemma PreProcess_file (e : Encoder) (w : World) :
  file (fst (fst (PreProcess e w))) = file e.
Proof.
  unfold PreProcess.
  repeat case_match; subst; simpl; try reflexivity;
    match goal with
    | H : initCacheKey ?e2 w = (?e3, _) |- _ =>
        pose proof (initCacheKey_file e2 w) as Hi; rewrite H in Hi; simpl in Hi;
        rewrite Hi; apply coerceBlockSize_file
    end.
Qed.

(** C10, as the code has it. [Close] on an encoder whose file was never
    opened calls [Close] on a nil [*os.File], which returns [os.ErrInvalid]:
    the call returns that error, does not panic and changes nothing. This
    holds for a new encoder and still after [PreProcess], which leaves the
    file of the encoder nil. *)
Theorem Close_before_request (e : Encoder) (w : World) :
  file e = None ->
  Close e w = Returned (w, Some ErrInvalid) /\
  (let '(e1, w1, _) := PreProcess e w in
   Close e1 w1 = Returned (w1, Some ErrInvalid)).
Proof.
  intros Hf. split.
  - unfold Close. rewrite Hf. reflexivity.
  - pose proof (PreProcess_file e w) as Hp.
    destruct (PreProcess e w) as [[e1 w1] err]. simpl in Hp.
    unfold Close. rewrite Hp, Hf. reflexivity.
Qed.

Lemma Close_before_request_witness :
  file (sample_encoder 1024) = None /\
  Close (sample_encoder 1024) (sample_world five_bytes)
    = Returned (sample_world five_bytes, Some ErrInvalid).
Proof.
  assert (file (sample_encoder 1024) = None) as Hf by reflexivity.
  split; [exact Hf|].
  destruct (Close_before_request (sample_encoder 1024) (sample_world five_bytes) Hf)
    as [H _].
  exact H.
Defined.

(** A new encoder, closed before any request: the call returns. *)
Lemma Close_before_request_counterexample :
  file (sample_encoder 1024) = None /\
  Close (sample_encoder 1024) (sample_world five_bytes) <> Panicked.
Proof. split; [reflexivity|discriminate]. Qed.

(** ** Past the last block *)

Lemma Request_EOF (e : Encoder) (w : World) (n : Z) :
  1 <= n <= max_int64 -> numBlocks e <= n - 1 ->
  Request e w n = Returned (e, w, ([], Some EOF)).
Proof.
  intros Hn Hnb. unfold Request.
  destruct (n =? 0) eqn:E0; [apply Z.eqb_eq in E0; lia|].
  rewrite wrap64_id by (unfold in_int64, min_int64, max_int64 in *; lia).
  destruct (numBlocks e <=? n - 1) eqn:E; [reflexivity|].
  apply Z.leb_gt in E. lia.
Qed.

(** C6. A request [n >= 1] with [n-1 >= numBlocks] returns no bytes and
    the end-of-stream error, and leaves the encoder and the file system as
    they were; so does every request after it, whatever their number: any
    sequence of requests past the last block is answered by end-of-stream
    only, and nothing changes. *)
Theorem Request_end_of_stream (e : Encoder) (w : World) (n : Z) (later : list Z) :
  1 <= n <= max_int64 -> numBlocks e <= n - 1 ->
  Forall (fun m => n <= m <= max_int64) later ->
  Request e w n = Returned (e, w, ([], Some EOF)) /\
  serve e w (n :: later) =
    Returned (e, w, repeat ([], Some EOF) (S (length later))).
Proof.
  intros Hn Hnb Hlater. split; [apply Request_EOF; assumption|].
  assert (forall ms, Forall (fun m => n <= m <= max_int64) ms ->
            serve e w ms = Returned (e, w, repeat ([], Some EOF) (length ms))) as H.
  { induction ms as [|m ms IH]; intros HF; [reflexivity|].
    inversion HF as [|? ? Hm HF']; subst. simpl.
    rewrite Request_EOF by lia. rewrite (IH HF'). reflexivity. }
  apply (H (n :: later)). constructor; [lia|assumption].
Qed.

Lemma Request_end_of_stream_witness :
  serve (mkEncoder "testdata/test_0" 2 "" None 3 1) (sample_world five_bytes) [4; 5; 9] =
    Returned (mkEncoder "testdata/test_0" 2 "" None 3 1, sample_world five_bytes,
              [([], Some EOF); ([], Some EOF); ([], Some EOF)]).
Proof.
  assert (1 <= 4 <= max_int64) as H1 by (unfold max_int64; lia).
  assert (numBlocks (mkEncoder "testdata/test_0" 2 "" None 3 1) <= 4 - 1) as H2
    by (simpl; lia).
  assert (Forall (fun m => 4 <= m <= max_int64) [5; 9]) as H3
    by (repeat constructor; unfold max_int64; lia).
  destruct (Request_end_of_stream (mkEncoder "testdata/test_0" 2 "" None 3 1)
              (sample_world five_bytes) 4 [5; 9] H1 H2 H3) as [_ H].
  exact H.
Defined.

(** ** Blocks and their chain *)

Section Blocks.

Variable data : list byte.
Variables blockSize nb hbs : Z.
Hypothesis Hgeo : geometry (len data) blockSize nb hbs.
Hypothesis Hnb : 1 <= nb.

Lemma geometry_size : blockSize * (nb - 1) + hbs = len data.
Proof. destruct Hgeo as (_ & _ & [[? _]|[_ ?]]); [lia|assumption]. Qed.

Lemma geometry_blockSize : 0 < blockSize.
Proof. apply Hgeo. Qed.

Lemma geometry_hbs : 0 <= hbs <= blockSize.
Proof. apply Hgeo. Qed.

(** A read of the block's length at the block's offset gives the block. *)
Lemma read_is_block (i : Z) :
  0 <= i < nb ->
  take (Z.to_nat (if i =? nb - 1 then hbs else blockSize))
       (drop (Z.to_nat (blockSize * i)) data) = file_block data blockSize i.
Proof.
  intros Hi. unfold file_block.
  pose proof geometry_size as Hs. pose proof geometry_hbs as Hh.
  destruct (i =? nb - 1) eqn:E; [|reflexivity].
  apply Z.eqb_eq in E. subst i.
  pose proof geometry_blockSize as Hb.
  assert (0 <= blockSize * (nb - 1)) as Hp by nia.
  rewrite !take_ge; [reflexivity| |]; rewrite length_drop; unfold len in Hs; lia.
Qed.

Lemma file_block_length (i : Z) :
  0 <= i < nb ->
  len (file_block data blockSize i) = if i =? nb - 1 then hbs else blockSize.
Proof.
  intros Hi. rewrite <- read_is_block by assumption.
  pose proof geometry_size as Hs. pose proof geometry_hbs as Hh.
  pose proof geometry_blockSize as Hb.
  unfold len in *. rewrite length_take, length_drop.
  assert (0 <= blockSize * i) as Hp by nia.
  destruct (i =? nb - 1) eqn:E.
  - apply Z.eqb_eq in E. subst i. lia.
  - apply Z.eqb_neq in E.
    assert (blockSize * i + blockSize <= blockSize * (nb - 1)) as Hq by nia.
    lia.
Qed.

(** The first [k] blocks are the first [blockSize * k] bytes. *)
Lemma file_blocks_prefix (k : nat) :
  concat (map (file_block data blockSize) (seqZ 0 (Z.of_nat k)))
    = take (Z.to_nat (blockSize * Z.of_nat k)) data.
Proof.
  pose proof geometry_blockSize as Hb.
  induction k as [|k IH].
  - rewrite Z.mul_0_r. reflexivity.
  - replace (Z.of_nat (S k)) with (Z.of_nat k + 1) by lia.
    rewrite seqZ_app by lia. rewrite map_app, concat_app, IH.
    simpl. rewrite app_nil_r. unfold file_block.
    rewrite Z.add_0_l.
    rewrite take_take_drop. f_equal. nia.
Qed.

(** All the blocks, in index order, are the file. *)
Lemma file_blocks_concat :
  concat (map (file_block data blockSize) (seqZ 0 nb)) = data.
Proof.
  pose proof geometry_size as Hs. pose proof geometry_hbs as Hh.
  replace nb with (Z.of_nat (Z.to_nat nb)) by lia.
  rewrite file_blocks_prefix. apply take_ge. unfold len in Hs. nia.
Qed.

Lemma chain_hash_last :
  chain_hash data blockSize nb (nb - 1)
    = sha256 (file_block data blockSize (nb - 1) ++ zero32).
Proof.
  unfold chain_hash. replace (nb - 1 - (nb - 1)) with 0 by lia. reflexivity.
Qed.

Lemma chain_hash_step (i : Z) :
  0 <= i < nb - 1 ->
  chain_hash data blockSize nb i
    = sha256 (file_block data blockSize i ++ chain_hash data blockSize nb (i + 1)).
Proof.
  intros Hi. unfold chain_hash.
  replace (Z.to_nat (nb - 1 - i)) with (S (Z.to_nat (nb - 1 - (i + 1)))) by lia.
  simpl chain_back. do 3 f_equal. lia.
Qed.

Lemma chain_hash_length (i : Z) :
  length (chain_hash data blockSize nb i) = 32%nat.
Proof.
  unfold chain_hash. destruct (Z.to_nat (nb - 1 - i)); apply sha256_length.
Qed.

End Blocks.

(** ** The file behind a descriptor *)

Lemma moved_refl (fd : nat) (name : string) (w : World) (off : Z) :
  handles w !! fd = Some (name, off) -> moved fd name w w.
Proof. intros H. repeat split; eauto. Qed.

Lemma moved_trans (fd : nat) (name : string) (w1 w2 w3 : World) :
  moved fd name w1 w2 -> moved fd name w2 w3 -> moved fd name w1 w3.
Proof.
  intros (F1 & A1 & C1 & O1 & H1) (F2 & A2 & C2 & O2 & H2).
  split; [congruence|]. split; [congruence|]. split; [congruence|].
  split; [exact O2|].
  intros fd' Hne. rewrite H2, H1 by assumption. reflexivity.
Qed.

Lemma file_Seek_ok (w : World) (fd : nat) (name : string) (off0 off : Z) :
  handles w !! fd = Some (name, off0) -> 0 <= off ->
  exists w', file_Seek w fd off = (w', None) /\ moved fd name w w' /\
             handles w' !! fd = Some (name, off).
Proof.
  intros H Hoff. unfold file_Seek. rewrite H.
  destruct (off <? 0) eqn:E; [apply Z.ltb_lt in E; lia|].
  eexists. split; [reflexivity|]. split.
  - repeat split; simpl; try reflexivity.
    + exists off. apply lookup_insert_eq.
    + intros fd' Hne. apply lookup_insert_ne. congruence.
  - simpl. apply lookup_insert_eq.
Qed.

Lemma file_Read_ok (w : World) (fd : nat) (name : string) (off : Z)
    (data b : list byte) :
  handles w !! fd = Some (name, off) ->
  files w !! name = Some (Regular data) ->
  length (take (length b) (drop (Z.to_nat off) data)) = length b ->
  exists w', file_Read w fd b = (w', take (length b) (drop (Z.to_nat off) data), None)
             /\ moved fd name w w'.
Proof.
  intros H Hf Hlen. unfold file_Read. rewrite H, Hf.
  destruct (length b =? 0)%nat eqn:E.
  - apply Nat.eqb_eq in E. exists w. split; [|eapply moved_refl; eassumption].
    destruct b; [|discriminate]. reflexivity.
  - apply Nat.eqb_neq in E.
    destruct (take (length b) (drop (Z.to_nat off) data)) as [|x got] eqn:Eg.
    + simpl in Hlen. lia.
    + eexists. split.
      * rewrite Hlen. rewrite drop_all, app_nil_r. reflexivity.
      * repeat split; simpl; try reflexivity.
        -- eexists. apply lookup_insert_eq.
        -- intros fd' Hne. apply lookup_insert_ne. congruence.
Qed.

(** ** The loop of PreProcess *)

Section HashLoop.

Variable e : Encoder.
Variable fd : nat.
Variable data : list byte.
Hypothesis Hsize : len data <= max_int64.
Hypothesis Hgeo :
  geometry (len data) (BlockSize e) (numBlocks e) (highestBlockSize e).

Let bs := BlockSize e.
Let nb := numBlocks e.
Let hbs := highestBlockSize e.
Let name := FileName e.
Let key := cacheKey e.

Lemma hashLoop_spec (k : nat) :
  forall (block parentHash : list byte) (w : World) (entries : gmap Z (list byte)),
  Z.of_nat k <= nb ->
  files w !! name = Some (Regular data) ->
  (exists off, handles w !! fd = Some (name, off)) ->
  cache w !! key = Some (CacheDir entries) ->
  len block = (if Z.of_nat k =? nb then hbs else bs) ->
  parentHash = (if Z.of_nat k =? nb then zero32
                else chain_hash data bs nb (Z.of_nat k)) ->
  exists w' entries',
    hashLoop e fd k block parentHash w = (w', None) /\
    files w' = files w /\ abs w' = abs w /\
    (exists off, handles w' !! fd = Some (name, off)) /\
    (forall fd', fd' <> fd -> handles w' !! fd' = handles w !! fd') /\
    cache w' = <[key := CacheDir entries']> (cache w) /\
    (forall i, entries' !! i =
       if decide (0 <= i < Z.of_nat k) then Some (chain_hash data bs nb i)
       else entries !! i).
Proof.
  induction k as [|k IH]; intros block ph w entries Hk Hf Hopen Hc Hblock Hph.
  - exists w, entries. simpl. repeat split; auto.
    + symmetry. apply insert_id. exact Hc.
    + intros i. destruct (decide (0 <= i < Z.of_nat 0)); [lia|reflexivity].
  - assert (1 <= nb) as Hnb by lia.
    pose proof (geometry_size data bs nb hbs Hgeo) as Hs.
    pose proof (geometry_blockSize data bs nb hbs Hgeo) as Hb.
    pose proof (geometry_hbs data bs nb hbs Hgeo) as Hh.
    assert (0 <= bs * Z.of_nat k) as Hoff by nia.
    assert (bs * Z.of_nat k <= len data) as Hoff' by nia.
    assert (0 <= Z.of_nat k < nb) as Hi by lia.
    destruct Hopen as [off0 Hopen].
    simpl hashLoop. fold bs key.
    rewrite wrap64_id
      by (pose proof (len_nonneg data);
          unfold in_int64, min_int64, max_int64 in *; lia).
    destruct (file_Seek_ok w fd name off0 (bs * Z.of_nat k) Hopen Hoff)
      as (w1 & -> & Hm1 & Hpos).
    assert (len block = if Z.of_nat k =? nb - 1 then hbs else bs) as Hblock'.
    { rewrite Hblock. replace (Z.of_nat (S k)) with (Z.of_nat k + 1) by lia.
      destruct (Z.of_nat k + 1 =? nb) eqn:E1, (Z.of_nat k =? nb - 1) eqn:E2;
        try reflexivity; lia. }
    assert (take (length block) (drop (Z.to_nat (bs * Z.of_nat k)) data)
            = file_block data bs (Z.of_nat k)) as Hread.
    { rewrite <- (read_is_block data bs nb hbs Hgeo Hnb) by assumption.
      f_equal. unfold len in Hblock'. lia. }
    assert (files w1 !! name = Some (Regular data)) as Hf1
      by (destruct Hm1 as (-> & _); exact Hf).
    destruct (file_Read_ok w1 fd name (bs * Z.of_nat k) data block Hpos Hf1)
      as (w2 & Hr & Hm2).
    { rewrite Hread.
      pose proof (file_block_length data bs nb hbs Hgeo Hnb (Z.of_nat k) Hi) as Hl.
      unfold len in Hl, Hblock'. lia. }
    rewrite Hr, Hread.
    pose proof (moved_trans _ _ _ _ _ Hm1 Hm2) as Hm.
    destruct Hm as (F2 & A2 & C2 & O2 & H2).
    unfold os_WriteFile. rewrite C2, Hc.
    set (ph' := sha256 (file_block data bs (Z.of_nat k) ++ ph)).
    assert (ph' = chain_hash data bs nb (Z.of_nat k)) as Hph'.
    { unfold ph'. rewrite Hph.
      replace (Z.of_nat (S k)) with (Z.of_nat k + 1) by lia.
      destruct (Z.of_nat k + 1 =? nb) eqn:E.
      - apply Z.eqb_eq in E. replace (Z.of_nat k) with (nb - 1) by lia.
        symmetry. apply chain_hash_last.
      - apply Z.eqb_neq in E. symmetry. apply chain_hash_step. lia. }
    set (w3 := set_cache w2 (<[key := CacheDir (<[Z.of_nat k := ph']> entries)]> (cache w))).
    destruct (IH (make bs) ph' w3 (<[Z.of_nat k := ph']> entries))
      as (w' & entries' & Hloop & F' & A' & O' & H' & C' & E').
    + lia.
    + simpl. rewrite F2. exact Hf.
    + simpl. exact O2.
    + simpl. apply lookup_insert_eq.
    + destruct (Z.of_nat k =? nb) eqn:E; [apply Z.eqb_eq in E; lia|].
      unfold len, make. rewrite repeat_length. lia.
    + destruct (Z.of_nat k =? nb) eqn:E; [apply Z.eqb_eq in E; lia|]. exact Hph'.
    + exists w', entries'. split; [exact Hloop|].
      split; [rewrite F'; simpl; exact F2|].
      split; [rewrite A'; simpl; exact A2|].
      split; [exact O'|].
      split; [intros fd' Hne; rewrite H' by assumption; simpl; apply H2; assumption|].
      split; [rewrite C'; simpl; apply insert_insert_eq|].
      intros i. rewrite E'.
      destruct (decide (0 <= i < Z.of_nat k)) as [Hlt|Hge].
      * destruct (decide (0 <= i < Z.of_nat (S k))); [reflexivity|lia].
      * destruct (decide (i = Z.of_nat k)) as [->|Hne].
        -- rewrite lookup_insert_eq.
           destruct (decide (0 <= Z.of_nat k < Z.of_nat (S k))); [congruence|lia].
        -- rewrite lookup_insert_ne by congruence.
           destruct (decide (0 <= i < Z.of_nat (S k))); [lia|reflexivity].
Qed.

End HashLoop.

(** ** PreProcess on a cache miss *)

Lemma World_eta (w : World) (f : gmap string node) (a : string -> option string)
    (c : gmap string cache_node) (h : gmap nat (string * Z)) :
  files w = f -> abs w = a -> cache w = c -> handles w = h -> w = mkWorld f a c h.
Proof. destruct w. simpl. intros. subst. reflexivity. Qed.

Lemma make_len (n : Z) : 0 <= n -> len (make n) = n.
Proof. intros H. unfold len, make. rewrite repeat_length. lia. Qed.

Lemma PreProcess_miss (e : Encoder) (w : World) (data : list byte) (fpath : string) :
  files w !! FileName e = Some (Regular data) ->
  len data <= max_int64 ->
  abs w (FileName e) = Some fpath ->
  cache w !! hex_EncodeToString (sha256 (list_byte_of_string fpath)) = None ->
  let key := hex_EncodeToString (sha256 (list_byte_of_string fpath)) in
  let bs := BlockSize (coerceBlockSize e) in
  let nb := fst (getBlockInfo (coerceBlockSize e) (len data)) in
  let hbs := snd (getBlockInfo (coerceBlockSize e) (len data)) in
  exists entries,
    PreProcess e w =
      (mkEncoder (FileName e) bs key (file e) nb hbs,
       mkWorld (files w) (abs w) (<[key := CacheDir entries]> (cache w)) (handles w),
       None) /\
    (forall i, entries !! i =
       if decide (0 <= i < nb) then Some (chain_hash data bs nb i) else None).
Proof.
  intros Hf Hsize Habs Hmiss key bs nb hbs.
  assert (0 < bs) as Hbs.
  { unfold bs, coerceBlockSize. destruct (BlockSize e <=? 0) eqn:E; simpl.
    - reflexivity.
    - apply Z.leb_gt in E. exact E. }
  assert (FileName (coerceBlockSize e) = FileName e) as Hname
    by (unfold coerceBlockSize; destruct (BlockSize e <=? 0); reflexivity).
  assert (cacheKey (coerceBlockSize e) = cacheKey e) as Hkey0
    by (unfold coerceBlockSize; destruct (BlockSize e <=? 0); reflexivity).
  pose proof (getBlockInfo_geometry (coerceBlockSize e) (len data)
                (conj (len_nonneg data) Hsize) Hbs) as Hgeo.
  fold bs nb hbs in Hgeo.
  set (e3 := mkEncoder (FileName e) bs key (file e) nb hbs).
  set (fd := fresh (dom (handles w))).
  set (w1 := set_cache w (<[key := CacheDir ∅]> (cache w))).
  set (w2 := set_handles w1 (<[fd := (FileName e, 0)]> (handles w1))).
  assert (0 <= nb) as Hnb0 by (destruct Hgeo as (_ & _ & [[? _]|[? _]]); lia).
  assert (0 <= hbs) as Hhbs0 by (destruct Hgeo as (_ & ? & _); lia).
  destruct (hashLoop_spec e3 fd data Hsize Hgeo (Z.to_nat nb)
              (make hbs) (make 32) w2 ∅)
    as (w3 & entries & Hloop & F3 & A3 & O3 & H3 & C3 & E3).
  - simpl. lia.
  - simpl. exact Hf.
  - simpl. exists 0. apply lookup_insert_eq.
  - simpl. apply lookup_insert_eq.
  - simpl. rewrite Z2Nat.id by lia. rewrite Z.eqb_refl. apply make_len. exact Hhbs0.
  - simpl. rewrite Z2Nat.id by lia. rewrite Z.eqb_refl. reflexivity.
  - exists entries. split.
    + unfold PreProcess. rewrite Hf.
      destruct (getBlockInfo (coerceBlockSize e) (len data)) as [nb' hbs'] eqn:Einfo.
      simpl in nb, hbs. subst nb hbs.
      unfold initCacheKey.
      cbn [FileName BlockSize cacheKey file numBlocks highestBlockSize].
      rewrite Hname, Habs.
      cbn [FileName BlockSize cacheKey file numBlocks highestBlockSize].
      rewrite Hmiss. fold key.
      unfold os_Open. cbn [files abs cache handles set_cache].
      rewrite Hf. fold fd.
      rewrite coerceBlockSize_file.
      match goal with
      | |- context [hashLoop ?a ?b ?c ?d ?f ?g] =>
          change (hashLoop a b c d f g)
            with (hashLoop e3 fd (Z.to_nat nb') (make hbs') (make 32) w2)
      end.
      rewrite Hloop.
      destruct O3 as [off3 O3].
      unfold file_Close. rewrite O3.
      f_equal. f_equal.
      apply World_eta; simpl.
      * rewrite F3. reflexivity.
      * rewrite A3. reflexivity.
      * rewrite C3. simpl. apply insert_insert_eq.
      * apply map_eq. intros fd'.
        destruct (decide (fd' = fd)) as [->|Hne].
        -- rewrite lookup_delete_eq. symmetry.
           apply not_elem_of_dom. apply is_fresh.
        -- rewrite lookup_delete_ne by congruence. rewrite H3 by assumption.
           simpl. apply lookup_insert_ne. congruence.
    + intros i. rewrite E3. simpl. rewrite Z2Nat.id by lia.
      destruct (decide (0 <= i < nb)); [reflexivity|apply lookup_empty].
Qed.

(** ** Serving *)

Lemma ready_geometry (data : list byte) (e : Encoder) (w : World) :
  ready data e w ->
  geometry (len data) (BlockSize e) (numBlocks e) (highestBlockSize e).
Proof.
  intros (_ & _ & Hb & Hh & Hnb & Hs & _). unfold geometry.
  split; [exact Hb|]. split; [exact Hh|]. right. split; assumption.
Qed.

(** The file of the encoder after the lazy open of [Request]. *)
Lemma Request_open (data : list byte) (e : Encoder) (w : World) :
  ready data e w ->
  exists w1 fd off,
    match file e with
    | None => os_Open w (FileName e)
    | Some fd => (w, Some fd, None)
    end = (w1, Some fd, None) /\
    files w1 = files w /\ abs w1 = abs w /\ cache w1 = cache w /\
    handles w1 !! fd = Some (FileName e, off) /\
    (forall fd', fd' <> fd -> handles w1 !! fd' = handles w !! fd') /\
    (forall fd', is_Some (handles w !! fd') -> is_Some (handles w1 !! fd')) /\
    (file e = None -> handles w !! fd = None) /\
    (forall fd0, file e = Some fd0 -> fd = fd0 /\ w1 = w).
Proof.
  intros (Hf & _ & _ & _ & _ & _ & _ & Hopen).
  destruct (file e) as [fd|] eqn:Efile.
  - destruct (Hopen fd eq_refl) as [off Hoff].
    exists w, fd, off.
    split; [reflexivity|]. split; [reflexivity|]. split; [reflexivity|].
    split; [reflexivity|]. split; [exact Hoff|]. split; [reflexivity|].
    split; [auto|]. split; [discriminate|].
    intros fd0 [= <-]. split; reflexivity.
  - unfold os_Open. rewrite Hf.
    set (fd := fresh (dom (handles w))).
    assert (handles w !! fd = None) as Hfresh
      by (apply not_elem_of_dom; apply is_fresh).
    eexists _, fd, 0. split; [reflexivity|]. simpl.
    split; [reflexivity|]. split; [reflexivity|]. split; [reflexivity|].
    split; [apply lookup_insert_eq|].
    split; [intros fd' Hne; apply lookup_insert_ne; congruence|].
    split.
    + intros fd' [x Hx]. destruct (decide (fd' = fd)) as [->|Hne].
      * congruence.
      * rewrite lookup_insert_ne by congruence. eauto.
    + split; [intros _; exact Hfresh|]. intros fd0 H0. discriminate.
Qed.

Lemma Request_ready (data : list byte) (e : Encoder) (w : World) (n : Z) :
  ready data e w -> 0 <= n <= max_int64 ->
  exists f' w',
    Request e w n =
      Returned (set_file e f', w', response data (BlockSize e) (numBlocks e) n) /\
    ready data (set_file e f') w' /\
    files w' = files w /\ abs w' = abs w /\ cache w' = cache w /\
    (forall fd, is_Some (handles w !! fd) -> is_Some (handles w' !! fd)) /\
    (n = 0 \/ numBlocks e < n -> f' = file e /\ w' = w) /\
    (1 <= n <= numBlocks e ->
       exists fd, f' = Some fd /\ is_Some (handles w' !! fd) /\
                  (file e = None -> handles w !! fd = None) /\
                  (forall fd0, file e = Some fd0 -> fd = fd0)).
Proof.
  intros Hready Hn.
  pose proof (ready_geometry data e w Hready) as Hgeo.
  pose proof Hready as (Hf & Hsize & Hb & Hh & Hnb & Hs & (entries & Hc & He) & Hopen).
  assert (set_file e (file e) = e) as Hsame by (destruct e; reflexivity).
  unfold Request, response.
  destruct (n =? 0) eqn:E0.
  - apply Z.eqb_eq in E0. subst n.
    exists (file e), w. rewrite Hsame.
    unfold os_ReadFile. rewrite Hc, (He 0) by lia.
    split; [reflexivity|]. split; [exact Hready|].
    split; [reflexivity|]. split; [reflexivity|]. split; [reflexivity|].
    split; [auto|]. split; [intros _; split; reflexivity|]. intros ?; lia.
  - apply Z.eqb_neq in E0.
    rewrite (wrap64_id (n - 1))
      by (unfold in_int64, min_int64, max_int64 in *; lia).
    destruct (numBlocks e <=? n - 1) eqn:E1.
    + apply Z.leb_le in E1.
      exists (file e), w. rewrite Hsame.
      destruct (n <? numBlocks e) eqn:E2; [apply Z.ltb_lt in E2; lia|].
      destruct (n =? numBlocks e) eqn:E3; [apply Z.eqb_eq in E3; lia|].
      split; [reflexivity|]. split; [exact Hready|].
      split; [reflexivity|]. split; [reflexivity|]. split; [reflexivity|].
      split; [auto|]. split; [intros _; split; reflexivity|]. intros ?; lia.
    + apply Z.leb_gt in E1.
      destruct (Request_open data e w Hready)
        as (w1 & fd & off & -> & F1 & A1 & C1 & O1 & H1 & K1 & N1 & S1).
      assert (0 <= BlockSize e * (n - 1)) as Hoff by nia.
      assert (BlockSize e * (n - 1) <= len data) as Hoff' by nia.
      rewrite (wrap64_id (BlockSize e * (n - 1)))
        by (unfold in_int64, min_int64, max_int64 in *; lia).
      rewrite (wrap64_id (numBlocks e - 1))
        by (unfold in_int64, min_int64, max_int64 in *; nia).
      destruct (file_Seek_ok w1 fd (FileName e) off (BlockSize e * (n - 1)) O1 Hoff)
        as (w2 & -> & Hm2 & Hpos).
      set (readSize := if n - 1 =? numBlocks e - 1 then highestBlockSize e
                       else BlockSize e).
      assert (0 <= readSize) as Hrs
        by (unfold readSize; destruct (n - 1 =? numBlocks e - 1); lia).
      unfold make_bytes.
      destruct (readSize <? 0) eqn:E4; [apply Z.ltb_lt in E4; lia|].
      assert (length (make readSize) = Z.to_nat readSize) as Hml
        by (unfold make; apply repeat_length).
      assert (take (length (make readSize))
                (drop (Z.to_nat (BlockSize e * (n - 1))) data)
              = file_block data (BlockSize e) (n - 1)) as Hread.
      { rewrite Hml. unfold readSize.
        apply (read_is_block data (BlockSize e) (numBlocks e) (highestBlockSize e));
          [exact Hgeo|lia|lia]. }
      assert (files w2 !! FileName e = Some (Regular data)) as Hf2.
      { destruct Hm2 as (-> & _). rewrite F1. exact Hf. }
      destruct (file_Read_ok w2 fd (FileName e) (BlockSize e * (n - 1)) data
                  (make readSize) Hpos Hf2) as (w3 & Hr & Hm3).
      { rewrite Hread, Hml.
        pose proof (file_block_length data (BlockSize e) (numBlocks e)
                      (highestBlockSize e) Hgeo Hnb (n - 1) ltac:(lia)) as Hl.
        fold readSize in Hl. unfold len in Hl. lia. }
      rewrite Hr, Hread.
      pose proof (moved_trans _ _ _ _ _ Hm2 Hm3) as (F3 & A3 & C3 & O3 & H3).
      assert (ready data (set_file e (Some fd)) w3) as Hready3.
      { unfold ready. cbn [set_file FileName BlockSize cacheKey file numBlocks
                            highestBlockSize].
        split; [rewrite F3, F1; exact Hf|].
        split; [exact Hsize|]. split; [exact Hb|]. split; [exact Hh|].
        split; [exact Hnb|]. split; [exact Hs|].
        split; [exists entries; split; [rewrite C3, C1; exact Hc|exact He]|].
        intros fd0 [= <-]. exact O3. }
      assert (forall fd', is_Some (handles w !! fd') -> is_Some (handles w3 !! fd'))
        as Hkeep.
      { intros fd' Hsome. destruct (decide (fd' = fd)) as [->|Hne].
        - destruct O3 as [off3 O3]. eauto.
        - rewrite H3 by assumption. apply K1. exact Hsome. }
      assert (1 <= n <= numBlocks e ->
              exists fd1, Some fd = Some fd1 /\ is_Some (handles w3 !! fd1) /\
                (file e = None -> handles w !! fd1 = None) /\
                (forall fd0, file e = Some fd0 -> fd1 = fd0)) as Hlazy.
      { intros _. exists fd. split; [reflexivity|].
        split; [destruct O3 as [off3 O3]; eauto|].
        split; [exact N1|]. intros fd0 H0. apply (S1 fd0 H0). }
      exists (Some fd), w3.
      destruct (n - 1 =? numBlocks e - 1) eqn:E5.
      * apply Z.eqb_eq in E5. simpl negb. cbv iota.
        destruct (n <? numBlocks e) eqn:E2; [apply Z.ltb_lt in E2; lia|].
        destruct (n =? numBlocks e) eqn:E3; [|apply Z.eqb_neq in E3; lia].
        split; [reflexivity|]. split; [exact Hready3|].
        split; [rewrite F3; exact F1|]. split; [rewrite A3; exact A1|].
        split; [rewrite C3; exact C1|]. split; [exact Hkeep|].
        split; [intros [?|?]; lia|exact Hlazy].
      * apply Z.eqb_neq in E5. simpl negb. cbv iota.
        destruct (n <? numBlocks e) eqn:E2; [|apply Z.ltb_ge in E2; lia].
        split; [unfold os_ReadFile; rewrite C3, C1, Hc, (He n) by lia; reflexivity|].
        split; [exact Hready3|].
        split; [rewrite F3; exact F1|]. split; [rewrite A3; exact A1|].
        split; [rewrite C3; exact C1|]. split; [exact Hkeep|].
        split; [intros [?|?]; lia|exact Hlazy].
Qed.

(** ** What PreProcess leaves *)

(** C1. For a regular file and a positive block size, on a cache miss
    [PreProcess] returns without error and leaves, in the cache directory
    of the file's key, exactly one hash per block index of
    [0, numBlocks): the hash of the last index is the digest of the last
    block followed by 32 zero bytes, and the hash of every other index [i]
    is the digest of block [i] followed by the hash stored for [i + 1];
    these are the chain hashes of the data model. *)
Theorem PreProcess_writes_chain (e : Encoder) (w : World) (data : list byte)
    (fpath : string) :
  files w !! FileName e = Some (Regular data) ->
  len data <= max_int64 ->
  0 < BlockSize e ->
  abs w (FileName e) = Some fpath ->
  cache w !! hex_EncodeToString (sha256 (list_byte_of_string fpath)) = None ->
  exists e' w' entries,
    PreProcess e w = (e', w', None) /\
    BlockSize e' = BlockSize e /\
    numBlocks e' = fst (getBlockInfo e (len data)) /\
    cache w' !! cacheKey e' = Some (CacheDir entries) /\
    (forall i, is_Some (entries !! i) <-> 0 <= i < numBlocks e') /\
    (1 <= numBlocks e' ->
       entries !! (numBlocks e' - 1) =
         Some (sha256 (file_block data (BlockSize e) (numBlocks e' - 1) ++ zero32))) /\
    (forall i, 0 <= i < numBlocks e' - 1 ->
       exists h, entries !! (i + 1) = Some h /\
                 entries !! i = Some (sha256 (file_block data (BlockSize e) i ++ h))) /\
    (forall i, 0 <= i < numBlocks e' ->
       entries !! i = Some (chain_hash data (BlockSize e) (numBlocks e') i)).
Proof.
  intros Hf Hsize Hb Habs Hmiss.
  assert (coerceBlockSize e = e) as Hco.
  { unfold coerceBlockSize. destruct (BlockSize e <=? 0) eqn:E; [|reflexivity].
    apply Z.leb_le in E. lia. }
  destruct (PreProcess_miss e w data fpath Hf Hsize Habs Hmiss)
    as (entries & HP & HE).
  rewrite Hco in HP, HE.
  pose proof (getBlockInfo_geometry e (len data) (conj (len_nonneg data) Hsize) Hb)
    as Hgeo.
  set (nb := fst (getBlockInfo e (len data))) in *.
  set (hbs := snd (getBlockInfo e (len data))) in *.
  eexists _, _, entries. split; [exact HP|]. cbn [BlockSize numBlocks cacheKey cache].
  split; [reflexivity|]. split; [reflexivity|].
  split; [apply lookup_insert_eq|].
  assert (forall i, 0 <= i < nb ->
            entries !! i = Some (chain_hash data (BlockSize e) nb i)) as Hchain.
  { intros i Hi. rewrite HE. destruct (decide (0 <= i < nb)); [reflexivity|lia]. }
  split; [|split; [|split; [|exact Hchain]]].
  - intros i. rewrite HE. destruct (decide (0 <= i < nb)) as [Hi|Hi].
    + split; [intros _; exact Hi|intros _; eauto].
    + split; [intros [x Hx]; discriminate|intros H; contradiction].
  - intros Hnb. rewrite Hchain by lia. f_equal.
    apply (chain_hash_last data (BlockSize e) nb).
  - intros i Hi. exists (chain_hash data (BlockSize e) nb (i + 1)).
    split; [apply Hchain; lia|].
    rewrite Hchain by lia. f_equal.
    apply (chain_hash_step data (BlockSize e) nb). exact Hi.
Qed.

Lemma sample_miss (data : list byte) :
  cache (sample_world data)
    !! hex_EncodeToString (sha256 (list_byte_of_string "/srv/testdata/test_0")) = None.
Proof. apply lookup_empty. Qed.

Lemma sample_file (data : list byte) (bs : Z) :
  files (sample_world data) !! FileName (sample_encoder bs) = Some (Regular data).
Proof. apply lookup_singleton_eq. Qed.

(** A file of five bytes in blocks of two. *)
Lemma PreProcess_writes_chain_witness :
  exists e' w' entries,
    PreProcess (sample_encoder 2) (sample_world five_bytes) = (e', w', None) /\
    cache w' !! cacheKey e' = Some (CacheDir entries) /\
    entries !! 2 = Some (sha256 ([x05] ++ zero32)) /\
    entries !! 3 = None.
Proof.
  assert (len five_bytes <= max_int64) as H2 by (vm_compute; discriminate).
  assert (0 < BlockSize (sample_encoder 2)) as H3 by reflexivity.
  destruct (PreProcess_writes_chain (sample_encoder 2) (sample_world five_bytes)
              five_bytes "/srv/testdata/test_0"
              (sample_file five_bytes 2) H2 H3 eq_refl (sample_miss five_bytes))
    as (e' & w' & entries & HP & _ & Hnb & Hc & Hdom & Hlast & _).
  assert (numBlocks e' = 3) as Hnb3 by (rewrite Hnb; reflexivity).
  rewrite Hnb3 in Hlast, Hdom.
  exists e', w', entries. split; [exact HP|]. split; [exact Hc|]. split.
  - exact (Hlast ltac:(lia)).
  - destruct (entries !! 3) eqn:E; [|reflexivity].
    assert (0 <= 3 < 3) by (apply Hdom; eauto). lia.
Defined.

(** After a cache miss on a file that is not empty, the encoder is ready
    to serve, and its file handle is still nil. *)
Lemma PreProcess_ready (e : Encoder) (w : World) (data : list byte) (fpath : string) :
  files w !! FileName e = Some (Regular data) ->
  1 <= len data <= max_int64 ->
  abs w (FileName e) = Some fpath ->
  cache w !! hex_EncodeToString (sha256 (list_byte_of_string fpath)) = None ->
  file e = None ->
  exists e1 w1,
    PreProcess e w = (e1, w1, None) /\
    ready data e1 w1 /\
    file e1 = None /\
    FileName e1 = FileName e /\
    BlockSize e1 = BlockSize (coerceBlockSize e) /\
    numBlocks e1 = (len data - 1) / BlockSize e1 + 1 /\
    highestBlockSize e1 = (len data - 1) mod BlockSize e1 + 1 /\
    handles w1 = handles w.
Proof.
  intros Hf Hsize Habs Hmiss Hnil.
  destruct (PreProcess_miss e w data fpath Hf (proj2 Hsize) Habs Hmiss)
    as (entries & HP & HE).
  assert (0 < BlockSize (coerceBlockSize e)) as Hbs.
  { unfold coerceBlockSize. destruct (BlockSize e <=? 0) eqn:E; simpl.
    - reflexivity.
    - apply Z.leb_gt in E. exact E. }
  pose proof (getBlockInfo_bounds (coerceBlockSize e) (len data) Hsize Hbs) as Hbounds.
  pose proof (getBlockInfo_geometry (coerceBlockSize e) (len data)
                ltac:(lia) Hbs) as Hgeo.
  destruct (getBlockInfo (coerceBlockSize e) (len data)) as [nb hbs] eqn:Einfo.
  simpl fst in *. simpl snd in *.
  destruct Hbounds as (Hnb & Hnb1 & Hhbs & Hhbs1).
  eexists _, _. split; [exact HP|].
  cbn [FileName BlockSize cacheKey file numBlocks highestBlockSize handles].
  split; [|repeat split; auto].
  unfold ready.
  cbn [FileName BlockSize cacheKey file numBlocks highestBlockSize
       files cache handles].
  split; [exact Hf|]. split; [lia|]. split; [exact Hbs|]. split; [lia|].
  split; [exact Hnb1|].
  split; [exact (geometry_size data _ nb hbs Hgeo Hnb1)|].
  split.
  - exists entries. split; [apply lookup_insert_eq|].
    intros i Hi. rewrite HE. destruct (decide (0 <= i < nb)); [reflexivity|lia].
  - intros fd Hfd. congruence.
Qed.

(** Requests made in any order to a ready encoder get the responses of
    the protocol. *)
Lemma serve_ready (data : list byte) (requests : list Z) :
  forall (e : Encoder) (w : World),
  ready data e w ->
  Forall (fun n => 0 <= n <= max_int64) requests ->
  exists f' w',
    serve e w requests =
      Returned (set_file e f', w',
                map (response data (BlockSize e) (numBlocks e)) requests) /\
    ready data (set_file e f') w' /\
    (forall fd, is_Some (handles w !! fd) -> is_Some (handles w' !! fd)).
Proof.
  induction requests as [|n rest IH]; intros e w Hready Hall.
  - exists (file e), w. assert (set_file e (file e) = e) as -> by (destruct e; reflexivity).
    split; [reflexivity|]. split; [exact Hready|]. auto.
  - inversion Hall as [|? ? Hn Hrest]; subst.
    destruct (Request_ready data e w n Hready Hn)
      as (f1 & w1 & HR & Hready1 & _ & _ & _ & Hkeep1 & _).
    destruct (IH (set_file e f1) w1 Hready1 Hrest) as (f2 & w2 & HS & Hready2 & Hkeep2).
    exists f2, w2. simpl serve. rewrite HR, HS.
    split; [reflexivity|]. split; [exact Hready2|].
    intros fd Hfd. apply Hkeep2, Hkeep1, Hfd.
Qed.

(** C4, as the code has it. After [PreProcess] on a cache miss for a file
    that is not empty, request 0 yields the root hash, requests
    [1 .. numBlocks-1] yield the block followed by the chain hash of the
    next block, request [numBlocks] yields the last block followed by 32
    zero bytes, and every request beyond yields no bytes and the
    end-of-stream error, however the requests are ordered. For a file of
    10240 bytes and a block size of 1024 the counts are 10 and 1024, so
    requests 0 to 10 succeed, request 10 carries the zero trailer and
    request 11 is the end of the stream. *)
Theorem Request_protocol (e : Encoder) (w : World) (data : list byte)
    (fpath : string) (requests : list Z) :
  files w !! FileName e = Some (Regular data) ->
  1 <= len data <= max_int64 ->
  abs w (FileName e) = Some fpath ->
  cache w !! hex_EncodeToString (sha256 (list_byte_of_string fpath)) = None ->
  file e = None ->
  Forall (fun n => 0 <= n <= max_int64) requests ->
  exists e1 w1 e2 w2,
    PreProcess e w = (e1, w1, None) /\
    numBlocks e1 = (len data - 1) / BlockSize e1 + 1 /\
    highestBlockSize e1 = (len data - 1) mod BlockSize e1 + 1 /\
    (len data = 10240 -> BlockSize e1 = 1024 ->
       numBlocks e1 = 10 /\ highestBlockSize e1 = 1024) /\
    serve e1 w1 requests =
      Returned (e2, w2, map (response data (BlockSize e1) (numBlocks e1)) requests) /\
    response data (BlockSize e1) (numBlocks e1) 0
      = (chain_hash data (BlockSize e1) (numBlocks e1) 0, None) /\
    (forall n, 1 <= n < numBlocks e1 ->
       response data (BlockSize e1) (numBlocks e1) n
         = (file_block data (BlockSize e1) (n - 1)
              ++ chain_hash data (BlockSize e1) (numBlocks e1) n, None)) /\
    response data (BlockSize e1) (numBlocks e1) (numBlocks e1)
      = (file_block data (BlockSize e1) (numBlocks e1 - 1) ++ zero32, None) /\
    (forall n, numBlocks e1 < n ->
       response data (BlockSize e1) (numBlocks e1) n = ([], Some EOF)).
Proof.
  intros Hf Hsize Habs Hmiss Hnil Hall.
  destruct (PreProcess_ready e w data fpath Hf Hsize Habs Hmiss Hnil)
    as (e1 & w1 & HP & Hready & _ & _ & _ & Hnb & Hhbs & _).
  destruct (serve_ready data requests e1 w1 Hready Hall) as (f2 & w2 & HS & _ & _).
  pose proof Hready as (_ & _ & _ & _ & Hnb1 & _).
  exists e1, w1, (set_file e1 f2), w2.
  split; [exact HP|]. split; [exact Hnb|]. split; [exact Hhbs|].
  split; [intros Hlen Hbs; rewrite Hnb, Hhbs, Hlen, Hbs; split; reflexivity|].
  split; [exact HS|]. unfold response.
  split; [reflexivity|]. split; [|split].
  - intros n Hn.
    destruct (n =? 0) eqn:E0; [apply Z.eqb_eq in E0; lia|].
    destruct (n <? numBlocks e1) eqn:E1; [reflexivity|apply Z.ltb_ge in E1; lia].
  - destruct (numBlocks e1 =? 0) eqn:E0; [apply Z.eqb_eq in E0; lia|].
    rewrite Z.ltb_irrefl, Z.eqb_refl. reflexivity.
  - intros n Hn.
    destruct (n =? 0) eqn:E0; [apply Z.eqb_eq in E0; lia|].
    destruct (n <? numBlocks e1) eqn:E1; [apply Z.ltb_lt in E1; lia|].
    destruct (n =? numBlocks e1) eqn:E2; [apply Z.eqb_eq in E2; lia|reflexivity].
Qed.

(** The file of 10240 bytes in blocks of 1024: requests 10, 11 and 12. *)
Lemma Request_protocol_witness :
  exists e1 w1 e2 w2,
    PreProcess (sample_encoder 1024) (sample_world ten_blocks) = (e1, w1, None) /\
    numBlocks e1 = 10 /\ highestBlockSize e1 = 1024 /\
    serve e1 w1 [10; 11; 12] =
      Returned (e2, w2,
                [(file_block ten_blocks 1024 9 ++ zero32, None);
                 ([], Some EOF); ([], Some EOF)]).
Proof.
  assert (1 <= len ten_blocks <= max_int64) as H2
    by (vm_compute; split; discriminate).
  assert (Forall (fun n => 0 <= n <= max_int64) [10; 11; 12]) as H6
    by (repeat constructor; vm_compute; discriminate).
  destruct (Request_protocol (sample_encoder 1024) (sample_world ten_blocks)
              ten_blocks "/srv/testdata/test_0" [10; 11; 12]
              (sample_file ten_blocks 1024) H2 eq_refl (sample_miss ten_blocks)
              eq_refl H6)
    as (e1 & w1 & e2 & w2 & HP & _ & _ & Hcounts & HS & _ & _ & Hlast & Hpast).
  assert (BlockSize e1 = 1024) as Hbs.
  { change e1 with (fst (fst (e1, w1, @None error))). rewrite <- HP.
    vm_compute. reflexivity. }
  destruct (Hcounts ltac:(vm_compute; reflexivity) Hbs) as [Hnb Hhbs].
  rewrite Hbs, Hnb in HS, Hlast, Hpast.
  exists e1, w1, e2, w2. split; [exact HP|]. split; [exact Hnb|]. split; [exact Hhbs|].
  rewrite HS. simpl map. rewrite Hlast, (Hpast 11), (Hpast 12) by lia. reflexivity.
Defined.

(** Request 11 on the file of 10240 bytes in blocks of 1024: there are 10
    blocks and the request is past the last one. *)
Lemma Request_protocol_counterexample :
  let '(e1, w1, _) := PreProcess (sample_encoder 1024) (sample_world ten_blocks) in
  numBlocks e1 = 10 /\ highestBlockSize e1 = 1024 /\
  match Request e1 w1 11 with
  | Returned (_, _, r) => r = ([], Some EOF)
  | Panicked => False
  end.
Proof. vm_compute. repeat split. Qed.

(** ** Verified streaming *)

Section Verified.

Variable data : list byte.
Variables bs nb hbs : Z.
Hypothesis Hgeo : geometry (len data) bs nb hbs.
Hypothesis Hnb : 1 <= nb.
Hypothesis Hhbs : 0 < hbs.

Lemma trusted_after_length (i : Z) : length (trusted_after data bs nb i) = 32%nat.
Proof.
  unfold trusted_after. destruct (i =? nb); [reflexivity|apply chain_hash_length].
Qed.

Lemma response_block (j : Z) :
  1 <= j <= nb ->
  response data bs nb j
    = (file_block data bs (j - 1) ++ trusted_after data bs nb j, None).
Proof.
  intros Hj. unfold response, trusted_after.
  destruct (j =? 0) eqn:E0; [apply Z.eqb_eq in E0; lia|].
  destruct (j =? nb) eqn:E1.
  - apply Z.eqb_eq in E1. subst j. rewrite Z.ltb_irrefl. reflexivity.
  - apply Z.eqb_neq in E1.
    destruct (j <? nb) eqn:E2; [reflexivity|apply Z.ltb_ge in E2; lia].
Qed.

(** The hash trusted before block [j-1] is the digest of the response that
    carries it. *)
Lemma trusted_is_digest (j : Z) :
  1 <= j <= nb ->
  trusted_after data bs nb (j - 1)
    = sha256 (file_block data bs (j - 1) ++ trusted_after data bs nb j).
Proof.
  intros Hj. unfold trusted_after.
  destruct (j - 1 =? nb) eqn:E0; [apply Z.eqb_eq in E0; lia|].
  destruct (j =? nb) eqn:E1.
  - apply Z.eqb_eq in E1. subst j. apply chain_hash_last.
  - apply Z.eqb_neq in E1.
    rewrite (chain_hash_step data bs nb (j - 1)) by lia.
    replace (j - 1 + 1) with j by lia. reflexivity.
Qed.

Lemma response_long (j : Z) :
  1 <= j <= nb ->
  32 < len (file_block data bs (j - 1) ++ trusted_after data bs nb j).
Proof.
  intros Hj. unfold len. rewrite length_app, trusted_after_length.
  pose proof (file_block_length data bs nb hbs Hgeo Hnb (j - 1) ltac:(lia)) as Hl.
  pose proof (geometry_blockSize data bs nb hbs Hgeo) as Hb.
  unfold len in Hl. destruct (j - 1 =? nb - 1); lia.
Qed.

Lemma Decode_response (j : Z) :
  1 <= j <= nb ->
  Decode (trusted_after data bs nb (j - 1))
         (file_block data bs (j - 1) ++ trusted_after data bs nb j)
    = Returned (file_block data bs (j - 1), trusted_after data bs nb j, None).
Proof.
  intros Hj. rewrite (trusted_is_digest j Hj).
  rewrite Decode_accepts by (apply response_long; exact Hj).
  rewrite length_app, trusted_after_length.
  replace (length (file_block data bs (j - 1)) + 32 - 32)%nat
    with (length (file_block data bs (j - 1))) by lia.
  rewrite take_app_length, drop_app_length. reflexivity.
Qed.

End Verified.

Lemma verified_prefix (data : list byte) (m : nat) :
  forall (j : Z) (e : Encoder) (w : World) (rest : list Z),
  ready data e w -> 0 < highestBlockSize e ->
  1 <= j -> j + Z.of_nat m <= numBlocks e + 1 ->
  exists f' w',
    ready data (set_file e f') w' /\
    verified e w (trusted_after data (BlockSize e) (numBlocks e) (j - 1))
             (seqZ j (Z.of_nat m) ++ rest)
      = match verified (set_file e f') w'
                (trusted_after data (BlockSize e) (numBlocks e) (j - 1 + Z.of_nat m))
                rest with
        | Some blocks =>
            Some (map (file_block data (BlockSize e)) (seqZ (j - 1) (Z.of_nat m))
                  ++ blocks)
        | None => None
        end.
Proof.
  induction m as [|m IH]; intros j e w rest Hready Hhbs Hj Hm.
  - exists (file e), w.
    assert (set_file e (file e) = e) as -> by (destruct e; reflexivity).
    split; [exact Hready|]. simpl. rewrite Z.add_0_r.
    destruct (verified e w _ rest); reflexivity.
  - pose proof (ready_geometry data e w Hready) as Hgeo.
    pose proof Hready as (_ & Hsize & _ & _ & Hnb & Hs & _).
    assert (numBlocks e <= max_int64) as Hnbmax.
    { pose proof (geometry_blockSize _ _ _ _ Hgeo). nia. }
    destruct (Request_ready data e w j Hready ltac:(lia))
      as (f1 & w1 & HR & Hready1 & _).
    destruct (IH (j + 1) (set_file e f1) w1 rest Hready1 Hhbs ltac:(lia)
                ltac:(simpl; lia)) as (f' & w' & Hready' & HV).
    change (set_file (set_file e f1) f') with (set_file e f') in *.
    cbn [set_file BlockSize numBlocks] in HV.
    replace (j + 1 - 1) with j in HV by lia.
    replace (j + 1 - 1 + Z.of_nat m) with (j + Z.of_nat m) in HV by lia.
    replace (j - 1 + Z.of_nat (S m)) with (j + Z.of_nat m) by lia.
    exists f', w'. split; [exact Hready'|].
    rewrite !(seqZ_cons _ (Z.of_nat (S m))) by lia.
    replace (Z.pred (Z.of_nat (S m))) with (Z.of_nat m) by lia.
    replace (Z.succ j) with (j + 1) by lia.
    replace (Z.succ (j - 1)) with j by lia.
    rewrite <- app_comm_cons. cbn [verified]. rewrite HR.
    rewrite (response_block data _ _ j) by lia.
    rewrite (Decode_response data _ _ _ Hgeo Hnb Hhbs j) by lia.
    rewrite HV.
    destruct (verified _ w' _ rest); reflexivity.
Qed.

(** C2, as the code has it. For a file that is not empty, once
    [PreProcess] has built the chain, serving request 0 and then requests
    [1 .. numBlocks] in order, each response decoded against the hash
    trusted so far (the root hash first, then the suffix of the response
    before), succeeds at every step; the blocks it yields, concatenated in
    index order, are the bytes of the file. Request [numBlocks + 1] is
    already the end of the stream: with it the sequence fails. *)
Theorem round_trip_reproduces_file (e : Encoder) (w : World) (data : list byte)
    (fpath : string) :
  files w !! FileName e = Some (Regular data) ->
  1 <= len data < max_int64 ->
  abs w (FileName e) = Some fpath ->
  cache w !! hex_EncodeToString (sha256 (list_byte_of_string fpath)) = None ->
  file e = None ->
  exists e1 w1 blocks,
    PreProcess e w = (e1, w1, None) /\
    round_trip e1 w1 (numBlocks e1) = Some blocks /\
    blocks = map (file_block data (BlockSize e1)) (seqZ 0 (numBlocks e1)) /\
    concat blocks = data /\
    round_trip e1 w1 (numBlocks e1 + 1) = None.
Proof.
  intros Hf Hsize Habs Hmiss Hnil.
  destruct (PreProcess_ready e w data fpath Hf ltac:(lia) Habs Hmiss Hnil)
    as (e1 & w1 & HP & Hready & _ & _ & _ & Hnb & Hhbs & _).
  pose proof (ready_geometry data e1 w1 Hready) as Hgeo.
  pose proof Hready as (_ & _ & Hb & _ & Hnb1 & Hs & _).
  assert (0 < highestBlockSize e1) as Hhbs1.
  { rewrite Hhbs. pose proof (Z.mod_pos_bound (len data - 1) (BlockSize e1) Hb). lia. }
  assert (numBlocks e1 < max_int64) as Hnbmax by nia.
  destruct (Request_ready data e1 w1 0 Hready ltac:(lia))
    as (f0 & w0 & HR0 & Hready0 & _ & _ & _ & _ & Hsame & _).
  destruct (Hsame (or_introl eq_refl)) as [-> ->].
  assert (set_file e1 (file e1) = e1) as Hfix by (destruct e1; reflexivity).
  rewrite Hfix in HR0.
  assert (response data (BlockSize e1) (numBlocks e1) 0
          = (trusted_after data (BlockSize e1) (numBlocks e1) (1 - 1), None)) as Hroot.
  { unfold response, trusted_after.
    change (1 - 1) with 0. change (0 =? 0) with true. cbv iota.
    destruct (0 =? numBlocks e1) eqn:E; [apply Z.eqb_eq in E; lia|reflexivity]. }
  rewrite Hroot in HR0.
  exists e1, w1, (map (file_block data (BlockSize e1)) (seqZ 0 (numBlocks e1))).
  split; [exact HP|]. split; [|split; [reflexivity|split]].
  - destruct (verified_prefix data (Z.to_nat (numBlocks e1)) 1 e1 w1 []
                Hready Hhbs1 ltac:(lia) ltac:(lia)) as (f' & w' & _ & HV).
    rewrite Z2Nat.id, app_nil_r in HV by lia.
    unfold round_trip. rewrite HR0, HV. simpl. rewrite app_nil_r. reflexivity.
  - apply (file_blocks_concat data _ _ _ Hgeo Hnb1).
  - destruct (verified_prefix data (Z.to_nat (numBlocks e1)) 1 e1 w1 [numBlocks e1 + 1]
                Hready Hhbs1 ltac:(lia) ltac:(lia)) as (f' & w' & Hready' & HV).
    rewrite Z2Nat.id in HV by lia.
    unfold round_trip. rewrite HR0.
    replace (seqZ 1 (numBlocks e1 + 1)) with (seqZ 1 (numBlocks e1) ++ [numBlocks e1 + 1]).
    + rewrite HV. cbn [verified].
      rewrite (Request_EOF (set_file e1 f') w' (numBlocks e1 + 1))
        by (simpl; lia).
      reflexivity.
    + rewrite (seqZ_app 1 (numBlocks e1) 1) by lia.
      f_equal. replace (1 + numBlocks e1) with (numBlocks e1 + 1) by lia. reflexivity.
Qed.

(** The file of five bytes in blocks of two comes back whole. *)
Lemma round_trip_reproduces_file_witness :
  exists e1 w1 blocks,
    PreProcess (sample_encoder 2) (sample_world five_bytes) = (e1, w1, None) /\
    round_trip e1 w1 (numBlocks e1) = Some blocks /\
    concat blocks = five_bytes.
Proof.
  assert (1 <= len five_bytes < max_int64) as H2
    by (vm_compute; split; [discriminate|reflexivity]).
  destruct (round_trip_reproduces_file (sample_encoder 2) (sample_world five_bytes)
              five_bytes "/srv/testdata/test_0"
              (sample_file five_bytes 2) H2 eq_refl (sample_miss five_bytes) eq_refl)
    as (e1 & w1 & blocks & HP & HR & _ & HC & _).
  exists e1, w1, blocks. split; [exact HP|]. split; [exact HR|exact HC].
Defined.

(** Two sequences that fail. On the file of five bytes in blocks of two,
    requests 0 to [numBlocks + 1 = 4]: request 4 is the end of the stream.
    On an empty file, requests 0 to [numBlocks = 1]: the response to
    request 1 has 32 bytes and is too short for the verifier. *)
Lemma round_trip_reproduces_file_counterexample :
  (let '(e1, w1, _) := PreProcess (sample_encoder 2) (sample_world five_bytes) in
   numBlocks e1 = 3 /\ round_trip e1 w1 (3 + 1) = None /\
   match serve e1 w1 [4] with
   | Returned (_, _, rs) => rs = [([], Some EOF)]
   | Panicked => False
   end) /\
  (let '(e1, w1, _) := PreProcess (sample_encoder 1024) (sample_world []) in
   numBlocks e1 = 1 /\ round_trip e1 w1 1 = None /\
   match serve e1 w1 [0; 1] with
   | Returned (_, _, [(root, None); (served, None)]) =>
       served = zero32 /\
       Decode root served = Returned ([], [], Some (ErrTooShort 32))
   | _ => False
   end).
Proof. vm_compute. repeat split. Qed.

(** The loop of [Stream], from request [j] on, writes the blocks that are
    left and stops at the end of the stream. *)
Lemma streamLoop_ready (data : list byte) (m : nat) :
  forall (j : Z) (e : Encoder) (w : World) (out : list byte) (fuel : nat),
  ready data e w -> 0 < highestBlockSize e -> numBlocks e < max_int64 ->
  1 <= j -> j + Z.of_nat m = numBlocks e + 1 -> (m < fuel)%nat ->
  exists f' w',
    streamLoop fuel e w j
               (trusted_after data (BlockSize e) (numBlocks e) (j - 1)) out
      = Some (Returned
                (set_file e f', w',
                 out ++ concat (map (file_block data (BlockSize e))
                                    (seqZ (j - 1) (Z.of_nat m))),
                 Some EOF, None)).
Proof.
  induction m as [|m IH]; intros j e w out fuel Hready Hhbs Hmax Hj Hm Hfuel.
  - destruct fuel as [|fuel]; [lia|]. exists (file e), w.
    assert (set_file e (file e) = e) as -> by (destruct e; reflexivity).
    simpl streamLoop. rewrite Request_EOF by lia.
    simpl. rewrite app_nil_r. reflexivity.
  - destruct fuel as [|fuel]; [lia|].
    pose proof (ready_geometry data e w Hready) as Hgeo.
    pose proof Hready as (_ & _ & _ & _ & Hnb & _).
    destruct (Request_ready data e w j Hready ltac:(lia))
      as (f1 & w1 & HR & Hready1 & _).
    destruct (IH (j + 1) (set_file e f1) w1
                 (out ++ file_block data (BlockSize e) (j - 1)) fuel
                 Hready1 Hhbs Hmax ltac:(lia) ltac:(simpl; lia) ltac:(lia))
      as (f' & w' & HL).
    change (set_file (set_file e f1) f') with (set_file e f') in HL.
    cbn [set_file BlockSize numBlocks] in HL.
    replace (j + 1 - 1) with j in HL by lia.
    exists f', w'. simpl streamLoop. rewrite HR.
    rewrite (response_block data _ _ j) by lia.
    rewrite (Decode_response data _ _ _ Hgeo Hnb Hhbs j) by lia.
    rewrite wrap64_id by (unfold in_int64, min_int64, max_int64 in *; lia).
    rewrite HL.
    rewrite (seqZ_cons _ (Z.of_nat (S m))) by lia.
    replace (Z.pred (Z.of_nat (S m))) with (Z.of_nat m) by lia.
    replace (Z.succ (j - 1)) with j by lia.
    simpl. rewrite <- app_assoc. reflexivity.
Qed.

(** [Stream] on a file that is not empty and not yet in the cache: with
    fuel for one iteration per block and one more, the output file gets
    the bytes of the input file, and the loop ends on the end of the
    stream with no error of the verifier. *)
Lemma Stream_copies_file (e : Encoder) (w : World) (data : list byte)
    (fpath : string) (fuel : nat) :
  files w !! FileName e = Some (Regular data) ->
  1 <= len data < max_int64 ->
  abs w (FileName e) = Some fpath ->
  cache w !! hex_EncodeToString (sha256 (list_byte_of_string fpath)) = None ->
  file e = None ->
  len data < Z.of_nat fuel ->
  exists e' w', Stream fuel e w = Some (Returned (e', w', data, Some EOF, None)).
Proof.
  intros Hf Hsize Habs Hmiss Hnil Hfuel.
  destruct (PreProcess_ready e w data fpath Hf ltac:(lia) Habs Hmiss Hnil)
    as (e1 & w1 & HP & Hready & _ & _ & _ & Hnb & Hhbs & _).
  pose proof (ready_geometry data e1 w1 Hready) as Hgeo.
  pose proof Hready as (_ & _ & Hb & _ & Hnb1 & Hs & _).
  assert (0 < highestBlockSize e1) as Hhbs1.
  { rewrite Hhbs. pose proof (Z.mod_pos_bound (len data - 1) (BlockSize e1) Hb). lia. }
  assert (numBlocks e1 <= len data) as Hle by nia.
  destruct (Request_ready data e1 w1 0 Hready ltac:(lia))
    as (f0 & w0 & HR0 & _ & _ & _ & _ & _ & Hsame & _).
  destruct (Hsame (or_introl eq_refl)) as [-> ->].
  assert (set_file e1 (file e1) = e1) as Hfix by (destruct e1; reflexivity).
  rewrite Hfix in HR0.
  assert (response data (BlockSize e1) (numBlocks e1) 0
          = (trusted_after data (BlockSize e1) (numBlocks e1) (1 - 1), None)) as Hroot.
  { unfold response, trusted_after.
    change (1 - 1) with 0. change (0 =? 0) with true. cbv iota.
    destruct (0 =? numBlocks e1) eqn:E; [apply Z.eqb_eq in E; lia|reflexivity]. }
  rewrite Hroot in HR0.
  destruct (streamLoop_ready data (Z.to_nat (numBlocks e1)) 1 e1 w1 [] fuel
              Hready Hhbs1 ltac:(lia) ltac:(lia) ltac:(lia) ltac:(lia))
    as (f' & w' & HL).
  rewrite Z2Nat.id in HL by lia. change (1 - 1) with 0 in HL at 2.
  rewrite (file_blocks_concat data _ _ _ Hgeo Hnb1) in HL.
  exists (set_file e1 f'), w'. unfold Stream. rewrite HP, HR0, HL. reflexivity.
Qed.

(** [Stream] as main.go calls it, with no block size given: the file of
    five bytes is one block of the default size. *)
Example Stream_five_bytes :
  match Stream 2 (sample_encoder 0) (sample_world five_bytes) with
  | Some (Returned (e', _, out, reqErr, decodeErr)) =>
      BlockSize e' = 1024 /\ numBlocks e' = 1 /\ highestBlockSize e' = 5 /\
      out = five_bytes /\ reqErr = Some EOF /\ decodeErr = None
  | _ => False
  end.
Proof. vm_compute. repeat split. Qed.

(** ** Tampering *)





(** ** The file handle *)

Lemma keeps_open_refl (w : World) : keeps_open w w.
Proof. intros fd H. exact H. Qed.

Lemma keeps_open_trans (w1 w2 w3 : World) :
  keeps_open w1 w2 -> keeps_open w2 w3 -> keeps_open w1 w3.
Proof. intros H1 H2 fd H. apply H2, H1, H. Qed.

Lemma keeps_open_insert (w : World) (fd : nat) (x : string * Z) :
  keeps_open w (set_handles w (<[fd := x]> (handles w))).
Proof.
  intros fd' H. simpl. destruct (decide (fd' = fd)) as [->|Hne].
  - rewrite lookup_insert_eq. eauto.
  - rewrite lookup_insert_ne by congruence. exact H.
Qed.

Lemma os_Open_keeps (w : World) (name : string) :
  keeps_open w (fst (fst (os_Open w name))).
Proof.
  unfold os_Open. destruct (files w !! name); simpl.
  - apply keeps_open_insert.
  - apply keeps_open_refl.
Qed.

Lemma file_Seek_keeps (w : World) (fd : nat) (offset : Z) :
  keeps_open w (fst (file_Seek w fd offset)).
Proof.
  unfold file_Seek. destruct (handles w !! fd) as [[name off]|]; simpl.
  - destruct (offset <? 0); simpl; [apply keeps_open_refl|apply keeps_open_insert].
  - apply keeps_open_refl.
Qed.

Lemma file_Read_keeps (w : World) (fd : nat) (b : list byte) :
  keeps_open w (fst (fst (file_Read w fd b))).
Proof.
  unfold file_Read. destruct (handles w !! fd) as [[name off]|]; simpl;
    [|apply keeps_open_refl].
  destruct (files w !! name) as [[data|]|]; simpl; try apply keeps_open_refl.
  destruct (length b =? 0)%nat; simpl; [apply keeps_open_refl|].
  destruct (take (length b) (drop (Z.to_nat off) data)); simpl;
    [apply keeps_open_refl|apply keeps_open_insert].
Qed.

(** [Request] opens the file at the first request for a block that exists
    (request 0 and requests past the last block leave the handle as it
    is), keeps the handle it has, and never closes a descriptor: every
    descriptor that is open before a request is open after it, whatever
    the request number and whatever is returned, the end-of-stream error
    and the other errors included. *)
Lemma Request_never_closes (e e' : Encoder) (w w' : World) (n : Z)
    (r : list byte * option error) :
  Request e w n = Returned (e', w', r) ->
  keeps_open w w' /\
  (forall fd, file e = Some fd -> file e' = Some fd) /\
  (n = 0 \/ numBlocks e <= wrap64 (n - 1) -> file e' = file e /\ w' = w).
Proof.
  unfold Request. intros H.
  destruct (n =? 0) eqn:E0.
  { injection H as <- <- <-. apply Z.eqb_eq in E0.
    split; [apply keeps_open_refl|]. split; auto. }
  destruct (numBlocks e <=? wrap64 (n - 1)) eqn:E1.
  { injection H as <- <- <-.
    split; [apply keeps_open_refl|]. split; auto. }
  apply Z.eqb_neq in E0. apply Z.leb_gt in E1.
  assert (n = 0 \/ numBlocks e <= wrap64 (n - 1) -> file e' = file e /\ w' = w) as Hno
    by (intros [?|?]; lia).
  destruct (file e) as [fd|] eqn:Efile.
  - pose proof (file_Seek_keeps w fd (wrap64 (BlockSize e * wrap64 (n - 1)))) as Hs.
    destruct (file_Seek w fd (wrap64 (BlockSize e * wrap64 (n - 1)))) as [w2 [err|]];
      simpl in Hs.
    + injection H as <- <- <-. simpl. split; [exact Hs|]. split; [auto|exact Hno].
    + destruct (make_bytes _) as [block|]; [|discriminate].
      pose proof (file_Read_keeps w2 fd block) as Hr.
      destruct (file_Read w2 fd block) as [[w3 block1] [err|]]; simpl in Hr.
      * injection H as <- <- <-. simpl.
        split; [eapply keeps_open_trans; eassumption|]. split; [auto|exact Hno].
      * assert (keeps_open w w3) as Hk by (eapply keeps_open_trans; eassumption).
        destruct (negb _).
        -- destruct (os_ReadFile w3 (cacheKey e) n) as [hash [err|]];
             injection H as <- <- <-; simpl; (split; [exact Hk|]; split; [auto|exact Hno]).
        -- injection H as <- <- <-. simpl. split; [exact Hk|]. split; [auto|exact Hno].
  - pose proof (os_Open_keeps w (FileName e)) as Ho.
    destruct (os_Open w (FileName e)) as [[w1 [fd|]] oerr]; simpl in Ho.
    + pose proof (file_Seek_keeps w1 fd (wrap64 (BlockSize e * wrap64 (n - 1)))) as Hs.
      destruct (file_Seek w1 fd (wrap64 (BlockSize e * wrap64 (n - 1)))) as [w2 [err|]];
        simpl in Hs.
      * injection H as <- <- <-. simpl.
        split; [eapply keeps_open_trans; eassumption|].
        split; [discriminate|exact Hno].
      * destruct (make_bytes _) as [block|]; [|discriminate].
        pose proof (file_Read_keeps w2 fd block) as Hr.
        assert (keeps_open w w2) as Hk2 by (eapply keeps_open_trans; eassumption).
        destruct (file_Read w2 fd block) as [[w3 block1] [err|]]; simpl in Hr.
        -- injection H as <- <- <-. simpl.
           split; [eapply keeps_open_trans; eassumption|].
           split; [discriminate|exact Hno].
        -- assert (keeps_open w w3) as Hk by (eapply keeps_open_trans; eassumption).
           destruct (negb _).
           ++ destruct (os_ReadFile w3 (cacheKey e) n) as [hash [err|]];
                injection H as <- <- <-; simpl;
                (split; [exact Hk|]; split; [discriminate|exact Hno]).
           ++ injection H as <- <- <-. simpl.
              split; [exact Hk|]. split; [discriminate|exact Hno].
    + injection H as <- <- <-. simpl.
      split; [exact Ho|]. split; [discriminate|exact Hno].
Qed.

(** C8, at the input where the code leaves it. The file of five bytes in
    blocks of two is served to its last block and then three times past
    it. [PreProcess] and request 0 leave the file of the encoder nil and
    request 1 opens it, lazily; but the descriptor is still
    open after the last block and after every end-of-stream answer:
    [Request] does not release it, and only [Close] does. *)
Theorem Request_leaves_file_open :
  let '(e1, w1, _) := PreProcess (sample_encoder 2) (sample_world five_bytes) in
  file e1 = None /\ handles w1 = ∅ /\
  match serve e1 w1 [0], serve e1 w1 [0; 1], serve e1 w1 [0; 1; 2; 3; 4; 5; 6] with
  | Returned (e2, w2, _), Returned (e3, w3, _), Returned (e4, w4, rs) =>
      file e2 = None /\ handles w2 = ∅ /\
      file e3 = Some 0%nat /\ is_Some (handles w3 !! 0%nat) /\
      drop 4 rs = [([], Some EOF); ([], Some EOF); ([], Some EOF)] /\
      file e4 = Some 0%nat /\
      handles w4 !! 0%nat = Some ("testdata/test_0"%string, 5) /\
      match Close e4 w4 with
      | Returned (w5, err) => err = None /\ handles w5 = ∅
      | Panicked => False
      end
  | _, _, _ => False
  end.
Proof. vm_compute. repeat split. eauto. Qed.

(** * Further properties

    What the code shows beyond the protocol: the verifier on trusted
    hashes of any length, [PreProcess] on a file that is cached or
    cannot be read, requests outside the protocol, [Close], the program
    of main.go, and the first encoder. *)

(** ** The verifier *)

Lemma compareLoop_take (c h : list byte) :
  length c = 32%nat ->
  compareLoop 32 0 c h = Returned true <-> take 32 h = c.
Proof.
  intros Hc. rewrite compareLoop_true. split.
  - intros H. apply list_eq. intros j.
    destruct (decide (j < 32)%nat) as [Hj|Hj].
    + rewrite lookup_take_lt by lia.
      destruct (H j ltac:(lia)) as (b & -> & ->). reflexivity.
    + rewrite lookup_take_ge by lia. symmetry. apply lookup_ge_None. lia.
  - intros <- j Hj. rewrite length_take in Hc.
    destruct (lookup_lt_is_Some_2 h j ltac:(lia)) as [b Hb].
    exists b. rewrite lookup_take_lt by lia. auto.
Qed.

(** X1. [Decode] accepts, for a trusted hash of any length, exactly when
    the candidate has more than 32 bytes and the first 32 bytes of the
    trusted hash are the digest of the candidate; what it returns then is
    the candidate split 32 bytes before its end. Bytes of the trusted hash
    after the 32nd are never looked at. *)
Theorem Decode_accepts_iff (hash candidate block nextHash : list byte) :
  Decode hash candidate = Returned (block, nextHash, None) <->
  32 < len candidate /\ take 32 hash = sha256 candidate /\
  block = take (length candidate - 32) candidate /\
  nextHash = drop (length candidate - 32) candidate.
Proof.
  destruct (Z_le_gt_dec (len candidate) 32) as [Hle|Hgt].
  - rewrite Decode_too_short by assumption. split; [discriminate|lia].
  - rewrite Decode_long by lia.
    pose proof (compareLoop_take (sha256 candidate) hash (sha256_length _)) as Hc.
    destruct (compareLoop 32 0 (sha256 candidate) hash) as [[|]|] eqn:E.
    + split.
      * intros H. injection H as <- <-. split; [lia|]. split; [|auto].
        apply Hc. reflexivity.
      * intros (_ & _ & -> & ->). reflexivity.
    + split; [discriminate|]. intros (_ & H & _). apply Hc in H. discriminate.
    + split; [discriminate|]. intros (_ & H & _). apply Hc in H. discriminate.
Qed.

(** X2. [Decode] panics exactly when the candidate has more than 32 bytes
    and the trusted hash has fewer than 32 bytes, all of them equal to the
    first bytes of the digest of the candidate. With a trusted hash of 32
    bytes or more, or a candidate of at most 32 bytes, it always returns. *)
Theorem Decode_panics_iff (hash candidate : list byte) :
  Decode hash candidate = Panicked <->
  32 < len candidate /\ (length hash < 32)%nat /\
  take (length hash) (sha256 candidate) = hash.
Proof.
  destruct (Z_le_gt_dec (len candidate) 32) as [Hle|Hgt].
  { rewrite Decode_too_short by assumption. split; [discriminate|lia]. }
  destruct (le_lt_dec 32 (length hash)) as [Hh|Hh].
  - split; [|lia]. rewrite Decode_long by lia. intros H.
    pose proof (compareLoop_panic (sha256 candidate) hash 32 0) as Hp.
    rewrite sha256_length in Hp. specialize (Hp ltac:(lia) ltac:(lia)).
    destruct (compareLoop 32 0 (sha256 candidate) hash) as [[|]|];
      try discriminate.
    destruct (proj1 Hp eq_refl) as [Hlt _]. lia.
  - destruct (Decode_short_hash_cases hash candidate ltac:(lia) Hh)
      as [[Heq HD]|[Hne HD]]; rewrite HD.
    + split; [intros _; repeat split; [lia|lia|exact Heq]|reflexivity].
    + split; [discriminate|]. intros (_ & _ & H). contradiction.
Qed.


(** ** Block counts *)

(** X3. For a file that is not empty, the counts of [getBlockInfo] tile
    the file: there is at least one block, the last block has between 1 and
    [BlockSize] bytes, and the full blocks before it together with the last
    one are exactly the file. When the size is a multiple of the block
    size, the last block is a full block and not an empty one. *)
Theorem getBlockInfo_tiles_file (e : Encoder) (fileSize : Z) :
  1 <= fileSize <= max_int64 -> 0 < BlockSize e ->
  let '(nb, hbs) := getBlockInfo e fileSize in
  1 <= nb /\ 0 < hbs <= BlockSize e /\
  BlockSize e * (nb - 1) + hbs = fileSize /\
  (fileSize mod BlockSize e = 0 ->
     hbs = BlockSize e /\ nb = fileSize / BlockSize e).
Proof.
  intros Hs Hb. rewrite getBlockInfo_nonempty by assumption.
  pose proof (Z.mod_pos_bound (fileSize - 1) (BlockSize e) Hb) as Hm.
  pose proof (Z.div_pos (fileSize - 1) (BlockSize e) ltac:(lia) Hb) as Hd0.
  pose proof (Z.div_mod (fileSize - 1) (BlockSize e) ltac:(lia)) as Hdm.
  split; [lia|]. split; [lia|]. split; [lia|].
  intros Hz.
  pose proof (Z.div_mod fileSize (BlockSize e) ltac:(lia)) as Hdm'.
  rewrite Hz in Hdm'.
  assert (BlockSize e * ((fileSize - 1) / BlockSize e + 1 - fileSize / BlockSize e)
          = BlockSize e - ((fileSize - 1) mod BlockSize e + 1)) as Hk by lia.
  assert ((fileSize - 1) / BlockSize e + 1 - fileSize / BlockSize e = 0) as Hq by nia.
  split; nia.
Qed.

Lemma getBlockInfo_tiles_file_witness :
  (let '(nb, hbs) := getBlockInfo (sample_encoder 1024) 10240 in
   1 <= nb /\ 0 < hbs <= 1024 /\ 1024 * (nb - 1) + hbs = 10240 /\
   (10240 mod 1024 = 0 -> hbs = 1024 /\ nb = 10240 / 1024)) /\
  getBlockInfo (sample_encoder 1024) 10240 = (10, 1024) /\
  getBlockInfo (sample_encoder 1024) 10241 = (11, 1).
Proof.
  split; [|split; reflexivity].
  apply (getBlockInfo_tiles_file (sample_encoder 1024) 10240).
  - unfold max_int64. lia.
  - simpl. lia.
Defined.

(** ** The cache key *)

Lemma hexdigit_valid (n : Z) : 0 <= n < 16 -> is_hexdigit (hexdigit n) = true.
Proof.
  intros H. unfold is_hexdigit, hexdigit.
  rewrite nat_ascii_embedding by (destruct (n <? 10); lia).
  destruct (n <? 10) eqn:E; [apply Z.ltb_lt in E|apply Z.ltb_ge in E];
    rewrite Z2Nat.id by lia.
  - apply orb_true_iff. left. apply andb_true_iff. split; apply Z.leb_le; lia.
  - apply orb_true_iff. right. apply andb_true_iff. split; apply Z.leb_le; lia.
Qed.

Lemma hexdigit_inj (a b : Z) :
  0 <= a < 16 -> 0 <= b < 16 -> hexdigit a = hexdigit b -> a = b.
Proof.
  intros Ha Hb H. apply (f_equal nat_of_ascii) in H. unfold hexdigit in H.
  rewrite !nat_ascii_embedding in H
    by (destruct (a <? 10), (b <? 10); lia).
  destruct (a <? 10) eqn:Ea; destruct (b <? 10) eqn:Eb;
    try apply Z.ltb_lt in Ea; try apply Z.ltb_ge in Ea;
    try apply Z.ltb_lt in Eb; try apply Z.ltb_ge in Eb; lia.
Qed.

Lemma byte_to_Z_range (x : byte) : 0 <= Sha256.byte_to_Z x < 256.
Proof.
  unfold Sha256.byte_to_Z. pose proof (Byte.to_N_bounded x). lia.
Qed.

Lemma byte_to_Z_inj (x y : byte) : Sha256.byte_to_Z x = Sha256.byte_to_Z y -> x = y.
Proof.
  unfold Sha256.byte_to_Z. intros H. apply N2Z.inj in H.
  pose proof (Byte.of_to_N x) as Hx. pose proof (Byte.of_to_N y) as Hy.
  rewrite H in Hx. congruence.
Qed.

Lemma nibbles (z : Z) :
  0 <= z < 256 ->
  0 <= Z.shiftr z 4 < 16 /\ 0 <= Z.land z 15 < 16 /\
  z = 16 * Z.shiftr z 4 + Z.land z 15.
Proof.
  intros H. rewrite Z.shiftr_div_pow2 by lia.
  change 15 with (Z.ones 4). rewrite Z.land_ones by lia.
  change (2 ^ 4) with 16.
  pose proof (Z.div_mod z 16 ltac:(lia)).
  pose proof (Z.mod_pos_bound z 16 ltac:(lia)).
  assert (0 <= z / 16) by (apply Z.div_pos; lia).
  assert (z / 16 < 16) by (apply Z.div_lt_upper_bound; lia).
  lia.
Qed.

Lemma hex_EncodeToString_length (b : list byte) :
  String.length (hex_EncodeToString b) = (2 * length b)%nat.
Proof. induction b as [|x b IH]; simpl; [reflexivity|]. rewrite IH. lia. Qed.

Lemma hex_EncodeToString_digits (b : list byte) :
  Forall (fun c => is_hexdigit c = true) (list_ascii_of_string (hex_EncodeToString b)).
Proof.
  induction b as [|x b IH]; simpl; [constructor|].
  destruct (nibbles _ (byte_to_Z_range x)) as (H1 & H2 & _).
  constructor; [apply hexdigit_valid; exact H1|].
  constructor; [apply hexdigit_valid; exact H2|exact IH].
Qed.

Lemma hex_EncodeToString_inj (a b : list byte) :
  hex_EncodeToString a = hex_EncodeToString b -> a = b.
Proof.
  revert b. induction a as [|x a IH]; intros [|y b] H; simpl in H;
    try discriminate; [reflexivity|].
  injection H as H1 H2 H3.
  destruct (nibbles _ (byte_to_Z_range x)) as (Hx1 & Hx2 & Hx).
  destruct (nibbles _ (byte_to_Z_range y)) as (Hy1 & Hy2 & Hy).
  apply hexdigit_inj in H1; [|assumption..].
  apply hexdigit_inj in H2; [|assumption..].
  f_equal; [|apply IH; exact H3].
  apply byte_to_Z_inj. lia.
Qed.

(** X4. When the absolute path is found, [initCacheKey] changes the cache
    key and no other field; the key has 64 characters, each a digit or a
    letter from a to f, and two encoders get the same key only when their
    absolute paths have the same digest. *)
Theorem initCacheKey_key (e : Encoder) (w : World) (fpath : string) :
  abs w (FileName e) = Some fpath ->
  exists key,
    initCacheKey e w =
      (mkEncoder (FileName e) (BlockSize e) key (file e)
                 (numBlocks e) (highestBlockSize e), None) /\
    String.length key = 64%nat /\
    Forall (fun c => is_hexdigit c = true) (list_ascii_of_string key) /\
    forall e2 w2 fpath2,
      abs w2 (FileName e2) = Some fpath2 ->
      cacheKey (fst (initCacheKey e2 w2)) = key ->
      sha256 (list_byte_of_string fpath2) = sha256 (list_byte_of_string fpath).
Proof.
  intros Habs. unfold initCacheKey. rewrite Habs.
  eexists. split; [reflexivity|].
  split; [rewrite hex_EncodeToString_length, sha256_length; reflexivity|].
  split; [apply hex_EncodeToString_digits|].
  intros e2 w2 fpath2 H2. rewrite H2. simpl. apply hex_EncodeToString_inj.
Qed.

Lemma initCacheKey_key_witness :
  exists key,
    initCacheKey (sample_encoder 0) (sample_world five_bytes) =
      (mkEncoder "testdata/test_0" 0 key None 0 0, None) /\
    String.length key = 64%nat.
Proof.
  assert (abs (sample_world five_bytes) (FileName (sample_encoder 0))
          = Some "/srv/testdata/test_0"%string) as H by reflexivity.
  destruct (initCacheKey_key (sample_encoder 0) (sample_world five_bytes) _ H)
    as (key & H1 & H2 & _).
  exists key. split; [exact H1|exact H2].
Defined.

(** ** [PreProcess] on any file system *)

Lemma coerceBlockSize_positive (e : Encoder) :
  0 < BlockSize (coerceBlockSize e) /\
  FileName (coerceBlockSize e) = FileName e /\
  cacheKey (coerceBlockSize e) = cacheKey e /\
  (0 < BlockSize e -> coerceBlockSize e = e).
Proof.
  unfold coerceBlockSize. destruct (BlockSize e <=? 0) eqn:E; simpl.
  - apply Z.leb_le in E. repeat split; lia.
  - apply Z.leb_gt in E. repeat split; auto.
Qed.

(** The loop of [PreProcess] on any file system in which the descriptor is
    open and the cache directory exists: whether it ends or fails, it
    changes the offset of the descriptor and the entries of that
    directory, and nothing else. *)
Lemma hashLoop_any (e : Encoder) (fd : nat) (k : nat) :
  forall (block parentHash : list byte) (w : World) (name : string) (off : Z)
         (entries : gmap Z (list byte)),
  handles w !! fd = Some (name, off) ->
  cache w !! cacheKey e = Some (CacheDir entries) ->
  exists w' err off' entries',
    hashLoop e fd k block parentHash w = (w', err) /\
    files w' = files w /\ abs w' = abs w /\
    cache w' = <[cacheKey e := CacheDir entries']> (cache w) /\
    handles w' = <[fd := (name, off')]> (handles w).
Proof.
  induction k as [|i IH]; intros block ph w name off entries Hfd Hc.
  - exists w, None, off, entries. simpl.
    rewrite !insert_id by assumption. auto.
  - simpl. unfold file_Seek. rewrite Hfd.
    destruct (wrap64 (BlockSize e * Z.of_nat i) <? 0).
    { exists w, (Some ErrInvalid), off, entries.
      rewrite !insert_id by assumption. auto. }
    set (o1 := wrap64 (BlockSize e * Z.of_nat i)).
    set (w1 := set_handles w (<[fd := (name, o1)]> (handles w))).
    assert (handles w1 !! fd = Some (name, o1)) as Hfd1
      by (simpl; apply lookup_insert_eq).
    assert (exists w2 block1 rerr o2,
              file_Read w1 fd block = (w2, block1, rerr) /\
              files w2 = files w /\ abs w2 = abs w /\ cache w2 = cache w /\
              handles w2 = <[fd := (name, o2)]> (handles w)) as HR.
    { unfold file_Read. rewrite Hfd1. cbn [files w1 set_handles].
      destruct (files w !! name) as [[data|]|].
      - destruct (length block =? 0)%nat.
        + exists w1, block, None, o1. auto.
        + destruct (take (length block) (drop (Z.to_nat o1) data)) as [|b got] eqn:G.
          * exists w1, block, (Some EOF), o1. auto.
          * eexists _, _, None, _. split; [reflexivity|]. simpl.
            split; [reflexivity|]. split; [reflexivity|]. split; [reflexivity|].
            apply insert_insert_eq.
      - exists w1, block, (Some ErrIsDir), o1. auto.
      - exists w1, block, (Some ErrNotExist), o1. auto. }
    destruct HR as (w2 & block1 & rerr & o2 & -> & F2 & A2 & C2 & H2).
    destruct rerr as [err|].
    { exists w2, (Some err), o2, entries. rewrite C2.
      rewrite insert_id by assumption. auto. }
    unfold os_WriteFile. rewrite C2, Hc.
    set (h := sha256 (block1 ++ ph)).
    set (w3 := set_cache w2 (<[cacheKey e := CacheDir (<[Z.of_nat i := h]> entries)]> (cache w))).
    destruct (IH (make (BlockSize e)) h w3 name o2 (<[Z.of_nat i := h]> entries))
      as (w' & err & off' & entries' & HL & F' & A' & C' & H').
    + simpl. rewrite H2. apply lookup_insert_eq.
    + simpl. apply lookup_insert_eq.
    + exists w', err, off', entries'. split; [exact HL|].
      rewrite F', A', C', H'. simpl. rewrite H2.
      rewrite !insert_insert_eq. auto.
Qed.

(** [PreProcess] on a regular file whose cache directory does not exist
    yet, of any size: the directory is created, the descriptor that was
    opened is closed, and the error returned is the one of that [Close],
    nil, whatever happened in the loop. *)
Lemma PreProcess_miss_any (e : Encoder) (w : World) (data : list byte) (fpath : string) :
  files w !! FileName e = Some (Regular data) ->
  abs w (FileName e) = Some fpath ->
  cache w !! hex_EncodeToString (sha256 (list_byte_of_string fpath)) = None ->
  let key := hex_EncodeToString (sha256 (list_byte_of_string fpath)) in
  let bs := BlockSize (coerceBlockSize e) in
  let nb := fst (getBlockInfo (coerceBlockSize e) (len data)) in
  let hbs := snd (getBlockInfo (coerceBlockSize e) (len data)) in
  exists entries,
    PreProcess e w =
      (mkEncoder (FileName e) bs key (file e) nb hbs,
       mkWorld (files w) (abs w) (<[key := CacheDir entries]> (cache w)) (handles w),
       None).
Proof.
  intros Hf Habs Hmiss key bs nb hbs.
  destruct (coerceBlockSize_positive e) as (_ & Hname & _ & _).
  set (e3 := mkEncoder (FileName e) bs key (file e) nb hbs).
  set (fd := fresh (dom (handles w))).
  set (w1 := set_cache w (<[key := CacheDir ∅]> (cache w))).
  set (w2 := set_handles w1 (<[fd := (FileName e, 0)]> (handles w1))).
  destruct (hashLoop_any e3 fd (Z.to_nat nb) (make hbs) (make 32) w2
              (FileName e) 0 ∅)
    as (w3 & err & off3 & entries & Hloop & F3 & A3 & C3 & H3).
  { simpl. apply lookup_insert_eq. }
  { simpl. apply lookup_insert_eq. }
  exists entries.
  unfold PreProcess. rewrite Hf.
  destruct (getBlockInfo (coerceBlockSize e) (len data)) as [nb' hbs'] eqn:Einfo.
  simpl in nb, hbs. subst nb hbs.
  unfold initCacheKey.
  cbn [FileName BlockSize cacheKey file numBlocks highestBlockSize].
  rewrite Hname, Habs.
  cbn [FileName BlockSize cacheKey file numBlocks highestBlockSize].
  rewrite Hmiss. fold key.
  unfold os_Open. cbn [files abs cache handles set_cache].
  rewrite Hf. fold fd.
  rewrite coerceBlockSize_file.
  match goal with
  | |- context [hashLoop ?a ?b ?c ?d ?f ?g] =>
      change (hashLoop a b c d f g)
        with (hashLoop e3 fd (Z.to_nat nb') (make hbs') (make 32) w2)
  end.
  rewrite Hloop.
  unfold file_Close. rewrite H3, lookup_insert_eq.
  f_equal. f_equal.
  apply World_eta; simpl.
  - rewrite F3. reflexivity.
  - rewrite A3. reflexivity.
  - rewrite C3. simpl. apply insert_insert_eq.
  - rewrite ?H3. simpl. rewrite insert_insert_eq.
    apply delete_insert_id. apply not_elem_of_dom. apply is_fresh.
Qed.

(** [PreProcess] when the cache directory of the file exists. *)
Lemma PreProcess_hit (e : Encoder) (w : World) (data : list byte)
    (fpath : string) (entries : gmap Z (list byte)) :
  files w !! FileName e = Some (Regular data) ->
  abs w (FileName e) = Some fpath ->
  cache w !! hex_EncodeToString (sha256 (list_byte_of_string fpath))
    = Some (CacheDir entries) ->
  PreProcess e w =
    (mkEncoder (FileName e) (BlockSize (coerceBlockSize e))
       (hex_EncodeToString (sha256 (list_byte_of_string fpath))) (file e)
       (fst (getBlockInfo (coerceBlockSize e) (len data)))
       (snd (getBlockInfo (coerceBlockSize e) (len data))),
     w, None).
Proof.
  intros Hf Habs Hhit.
  destruct (coerceBlockSize_positive e) as (_ & Hname & _ & _).
  unfold PreProcess. rewrite Hf.
  destruct (getBlockInfo (coerceBlockSize e) (len data)) as [nb hbs] eqn:Einfo.
  unfold initCacheKey.
  cbn [FileName BlockSize cacheKey file numBlocks highestBlockSize].
  rewrite Hname, Habs.
  cbn [FileName BlockSize cacheKey file numBlocks highestBlockSize].
  rewrite Hhit, coerceBlockSize_file. reflexivity.
Qed.

(** X5. When the cache directory of the file exists, [PreProcess] sets the
    block size, the counts and the key, returns nil and leaves the file
    system as it is: it neither reads the file nor looks into the
    directory. Request 0 then answers with whatever the directory holds
    for block 0, and fails when it holds nothing. *)
Theorem PreProcess_cache_hit (e : Encoder) (w : World) (data : list byte)
    (fpath : string) (entries : gmap Z (list byte)) :
  files w !! FileName e = Some (Regular data) ->
  abs w (FileName e) = Some fpath ->
  cache w !! hex_EncodeToString (sha256 (list_byte_of_string fpath))
    = Some (CacheDir entries) ->
  let e1 := mkEncoder (FileName e) (BlockSize (coerceBlockSize e))
              (hex_EncodeToString (sha256 (list_byte_of_string fpath))) (file e)
              (fst (getBlockInfo (coerceBlockSize e) (len data)))
              (snd (getBlockInfo (coerceBlockSize e) (len data))) in
  PreProcess e w = (e1, w, None) /\
  Request e1 w 0 =
    Returned (e1, w, match entries !! 0 with
                     | Some h => (h, None)
                     | None => ([], Some ErrNotExist)
                     end).
Proof.
  intros Hf Habs Hhit e1. split.
  - exact (PreProcess_hit e w data fpath entries Hf Habs Hhit).
  - unfold Request, os_ReadFile. simpl. rewrite Hhit. reflexivity.
Qed.

(** X6. [PreProcess] a second time, on the encoder and the file system
    that the first run left for a file that was not in the cache, changes
    neither of them and returns nil. *)
Theorem PreProcess_idempotent (e : Encoder) (w : World) (data : list byte)
    (fpath : string) :
  files w !! FileName e = Some (Regular data) ->
  abs w (FileName e) = Some fpath ->
  cache w !! hex_EncodeToString (sha256 (list_byte_of_string fpath)) = None ->
  exists e1 w1,
    PreProcess e w = (e1, w1, None) /\
    PreProcess e1 w1 = (e1, w1, None).
Proof.
  intros Hf Habs Hmiss.
  destruct (PreProcess_miss_any e w data fpath Hf Habs Hmiss) as (entries & HP).
  cbv zeta in HP.
  eexists _, _. split; [exact HP|].
  destruct (coerceBlockSize_positive e) as (Hpos & _ & _ & _).
  match goal with
  | |- PreProcess ?e1 ?w1 = _ =>
      pose proof (PreProcess_hit e1 w1 data fpath entries) as H
  end.
  cbn [FileName files abs cache] in H.
  specialize (H Hf Habs (lookup_insert_eq _ _ _)).
  rewrite H. f_equal. f_equal.
    cbn [FileName file].
    match goal with
    | |- context [coerceBlockSize ?e1] =>
        assert (coerceBlockSize e1 = e1) as ->
          by (apply coerceBlockSize_positive; exact Hpos)
    end.
    unfold getBlockInfo. reflexivity.
Qed.


Lemma PreProcess_cache_hit_witness :
  PreProcess (sample_encoder 2) (stale_world five_bytes)
    = (mkEncoder "testdata/test_0" 2 sample_key None 3 1,
       stale_world five_bytes, None) /\
  Request (mkEncoder "testdata/test_0" 2 sample_key None 3 1)
          (stale_world five_bytes) 0
    = Returned (mkEncoder "testdata/test_0" 2 sample_key None 3 1,
                stale_world five_bytes, ([], Some ErrNotExist)).
Proof.
  assert (files (stale_world five_bytes) !! FileName (sample_encoder 2)
          = Some (Regular five_bytes)) as Hf by reflexivity.
  assert (abs (stale_world five_bytes) (FileName (sample_encoder 2))
          = Some "/srv/testdata/test_0"%string) as Ha by reflexivity.
  assert (cache (stale_world five_bytes)
            !! hex_EncodeToString (sha256 (list_byte_of_string "/srv/testdata/test_0"))
          = Some (CacheDir ∅)) as Hc by (apply lookup_singleton_eq).
  destruct (PreProcess_cache_hit (sample_encoder 2) (stale_world five_bytes)
              five_bytes _ ∅ Hf Ha Hc) as [H1 H2].
  split; [exact H1|exact H2].
Defined.

Lemma PreProcess_idempotent_witness :
  exists e1 w1,
    PreProcess (sample_encoder 2) (sample_world five_bytes) = (e1, w1, None) /\
    PreProcess e1 w1 = (e1, w1, None).
Proof.
  assert (files (sample_world five_bytes) !! FileName (sample_encoder 2)
          = Some (Regular five_bytes)) as Hf by reflexivity.
  assert (abs (sample_world five_bytes) (FileName (sample_encoder 2))
          = Some "/srv/testdata/test_0"%string) as Ha by reflexivity.
  assert (cache (sample_world five_bytes)
            !! hex_EncodeToString (sha256 (list_byte_of_string "/srv/testdata/test_0"))
          = None) as Hc by (apply lookup_empty).
  destruct (PreProcess_idempotent (sample_encoder 2) (sample_world five_bytes)
              five_bytes _ Hf Ha Hc) as (e1 & w1 & H1 & H2).
  exists e1, w1. split; [exact H1|exact H2].
Defined.

(** Every way through [PreProcess], with what it returns. *)
Lemma PreProcess_cases (e : Encoder) (w : World) :
  (files w !! FileName e = None /\ PreProcess e w = (e, w, Some ErrNotExist)) \/
  (files w !! FileName e = Some Irregular /\
     PreProcess e w = (e, w, Some (ErrNotRegular (FileName e)))) \/
  (exists data,
     files w !! FileName e = Some (Regular data) /\
     let bs := BlockSize (coerceBlockSize e) in
     let nb := fst (getBlockInfo (coerceBlockSize e) (len data)) in
     let hbs := snd (getBlockInfo (coerceBlockSize e) (len data)) in
     (abs w (FileName e) = None /\
        PreProcess e w =
          (mkEncoder (FileName e) bs (cacheKey e) (file e) nb hbs, w, Some ErrAbs)) \/
     (exists fpath,
        abs w (FileName e) = Some fpath /\
        let key := hex_EncodeToString (sha256 (list_byte_of_string fpath)) in
        let e3 := mkEncoder (FileName e) bs key (file e) nb hbs in
        (cache w !! key = Some CacheFile /\
           PreProcess e w = (e3, w, Some (ErrCacheNotDir key))) \/
        (exists entries,
           cache w !! key = Some (CacheDir entries) /\
           PreProcess e w = (e3, w, None)) \/
        (cache w !! key = None /\
           exists entries,
             PreProcess e w =
               (e3,
                mkWorld (files w) (abs w) (<[key := CacheDir entries]> (cache w))
                        (handles w),
                None)))).
Proof.
  destruct (coerceBlockSize_positive e) as (_ & Hname & Hkey & _).
  destruct (files w !! FileName e) as [[data|]|] eqn:Hf.
  - right. right. exists data. split; [reflexivity|]. cbv zeta.
    destruct (abs w (FileName e)) as [fpath|] eqn:Habs.
    + right. exists fpath. split; [reflexivity|].
      destruct (cache w !! hex_EncodeToString (sha256 (list_byte_of_string fpath)))
        as [[|entries]|] eqn:Hc.
      * left. split; [reflexivity|].
        unfold PreProcess. rewrite Hf.
        destruct (getBlockInfo (coerceBlockSize e) (len data)) as [nb hbs].
        unfold initCacheKey.
        cbn [FileName BlockSize cacheKey file numBlocks highestBlockSize].
        rewrite Hname, Habs.
        cbn [FileName BlockSize cacheKey file numBlocks highestBlockSize fst snd].
        rewrite Hc, coerceBlockSize_file. reflexivity.
      * right. left. exists entries. split; [reflexivity|].
        unfold PreProcess. rewrite Hf.
        destruct (getBlockInfo (coerceBlockSize e) (len data)) as [nb hbs].
        unfold initCacheKey.
        cbn [FileName BlockSize cacheKey file numBlocks highestBlockSize].
        rewrite Hname, Habs.
        cbn [FileName BlockSize cacheKey file numBlocks highestBlockSize fst snd].
        rewrite Hc, coerceBlockSize_file. reflexivity.
      * right. right. split; [reflexivity|].
        exact (PreProcess_miss_any e w data fpath Hf Habs Hc).
    + left. split; [reflexivity|].
      unfold PreProcess. rewrite Hf.
      destruct (getBlockInfo (coerceBlockSize e) (len data)) as [nb hbs].
      unfold initCacheKey.
      cbn [FileName BlockSize cacheKey file numBlocks highestBlockSize].
      rewrite Hname, Habs, Hkey, coerceBlockSize_file. reflexivity.
  - right. left. split; [reflexivity|]. unfold PreProcess. rewrite Hf. reflexivity.
  - left. split; [reflexivity|]. unfold PreProcess. rewrite Hf. reflexivity.
Qed.


(** X8. Whatever it returns, [PreProcess] leaves the files, the open
    descriptors and the cache directories of other keys as they were, and
    the name and the file handle of the encoder too: the descriptor it
    opens for hashing is closed again on every path. *)
Theorem PreProcess_frame (e : Encoder) (w : World) :
  let '(e', w', _) := PreProcess e w in
  files w' = files w /\ abs w' = abs w /\ handles w' = handles w /\
  (forall key, key <> cacheKey e' -> cache w' !! key = cache w !! key) /\
  FileName e' = FileName e /\ file e' = file e.
Proof.
  destruct (PreProcess_cases e w)
    as [[Hf ->]|[[Hf ->]|(data & Hf & [[Ha ->]|(fpath & Ha & H)])]];
    [repeat split; reflexivity..|].
  cbv zeta in H.
  destruct H as [[Hc ->]|[(entries & Hc & ->)|(Hc & entries & ->)]];
    [repeat split; reflexivity..|].
  cbn [files abs cache handles cacheKey FileName file].
  split; [reflexivity|]. split; [reflexivity|]. split; [reflexivity|].
  split; [|split; reflexivity].
  intros key Hne. apply lookup_insert_ne. congruence.
Qed.

(** ** Requests outside the protocol *)

Lemma Request_no_panic (e : Encoder) (w : World) (n : Z) :
  0 <= BlockSize e -> 0 <= highestBlockSize e -> Request e w n <> Panicked.
Proof.
  intros Hb Hh. unfold Request.
  destruct (n =? 0); [discriminate|].
  destruct (numBlocks e <=? wrap64 (n - 1)); [discriminate|].
  destruct (match file e with
            | Some fd => (w, Some fd, None)
            | None => os_Open w (FileName e)
            end) as [[w1 [fd|]] oerr]; [|discriminate].
  destruct (file_Seek w1 fd _) as [w2 [err|]]; [discriminate|].
  assert (make_bytes (if wrap64 (n - 1) =? wrap64 (numBlocks e - 1)
                      then highestBlockSize e else BlockSize e)
          = Returned (make (if wrap64 (n - 1) =? wrap64 (numBlocks e - 1)
                            then highestBlockSize e else BlockSize e))) as ->.
  { unfold make_bytes.
    destruct (wrap64 (n - 1) =? wrap64 (numBlocks e - 1));
      match goal with |- (if ?c then _ else _) = _ => destruct c eqn:E end;
      try reflexivity; apply Z.ltb_lt in E; lia. }
  destruct (file_Read w2 fd _) as [[w3 block1] [err|]]; [discriminate|].
  destruct (negb _); [|discriminate].
  destruct (os_ReadFile w3 (cacheKey e) n) as [hash [err|]]; discriminate.
Qed.

(** X9. After [PreProcess] on a regular file, whether it returned nil or an
    error, the block size is positive and the length of the last block is
    between 0 and the block size, and no request panics, whatever its
    number and whatever the file system is by then. *)
Theorem Request_never_panics (e : Encoder) (w : World) (data : list byte) :
  files w !! FileName e = Some (Regular data) ->
  len data <= max_int64 ->
  let '(e1, _, _) := PreProcess e w in
  0 < BlockSize e1 /\ 0 <= highestBlockSize e1 <= BlockSize e1 /\
  forall (w' : World) (n : Z), Request e1 w' n <> Panicked.
Proof.
  intros Hf Hsize.
  destruct (coerceBlockSize_positive e) as (Hpos & _).
  pose proof (getBlockInfo_geometry (coerceBlockSize e) (len data)
                (conj (len_nonneg data) Hsize) Hpos) as (_ & Hh & _).
  assert (forall key,
            let e1 := mkEncoder (FileName e) (BlockSize (coerceBlockSize e)) key (file e)
                        (fst (getBlockInfo (coerceBlockSize e) (len data)))
                        (snd (getBlockInfo (coerceBlockSize e) (len data))) in
            0 < BlockSize e1 /\ 0 <= highestBlockSize e1 <= BlockSize e1 /\
            forall (w' : World) (n : Z), Request e1 w' n <> Panicked) as Hgood.
  { intros key e1. subst e1. split; [exact Hpos|]. split; [exact Hh|].
    intros w' n. apply Request_no_panic; cbn [BlockSize highestBlockSize]; lia. }
  destruct (PreProcess_cases e w)
    as [[Hf' _]|[[Hf' _]|(data' & Hf' & [[Ha ->]|(fpath & Ha & H)])]];
    try congruence.
  - assert (data' = data) as -> by congruence. apply Hgood.
  - assert (data' = data) as -> by congruence. cbv zeta in H.
    destruct H as [[Hc ->]|[(entries & Hc & ->)|(Hc & entries & ->)]]; apply Hgood.
Qed.

Lemma Request_never_panics_witness :
  (let '(e1, _, _) := PreProcess (sample_encoder (-7)) (sample_world []) in
   0 < BlockSize e1 /\ 0 <= highestBlockSize e1 <= BlockSize e1 /\
   forall (w' : World) (n : Z), Request e1 w' n <> Panicked) /\
  Request (mkEncoder "testdata/test_0" (-7) "" None 2 0) (sample_world []) 1 = Panicked.
Proof.
  split; [|reflexivity].
  apply (Request_never_panics (sample_encoder (-7)) (sample_world []) []).
  - reflexivity.
  - unfold max_int64, len. cbn [length]. lia.
Defined.



Lemma file_Seek_frame (w : World) (fd : nat) (offset : Z) :
  let w' := fst (file_Seek w fd offset) in
  files w' = files w /\ abs w' = abs w /\ cache w' = cache w /\
  forall fd', fd' <> fd -> handles w' !! fd' = handles w !! fd'.
Proof.
  unfold file_Seek. destruct (handles w !! fd) as [[name off]|]; simpl; [|auto].
  destruct (offset <? 0); simpl; [auto|].
  repeat split. intros fd' Hne. apply lookup_insert_ne. congruence.
Qed.

Lemma file_Read_frame (w : World) (fd : nat) (b : list byte) :
  let w' := fst (fst (file_Read w fd b)) in
  files w' = files w /\ abs w' = abs w /\ cache w' = cache w /\
  forall fd', fd' <> fd -> handles w' !! fd' = handles w !! fd'.
Proof.
  unfold file_Read. destruct (handles w !! fd) as [[name off]|]; simpl; [|auto].
  destruct (files w !! name) as [[data|]|]; simpl; [|auto..].
  destruct (length b =? 0)%nat; simpl; [auto|].
  destruct (take (length b) (drop (Z.to_nat off) data)); simpl; [auto|].
  repeat split. intros fd' Hne. apply lookup_insert_ne. congruence.
Qed.

(** X11. A request that returns changes nothing of the file system but
    the descriptor of the encoder: files and cache are as before, every
    other descriptor is as before, no descriptor is closed, and of the
    encoder only the file handle may change, from nil to the descriptor
    opened. *)
Theorem Request_frame (e e' : Encoder) (w w' : World) (n : Z)
    (r : list byte * option error) :
  Request e w n = Returned (e', w', r) ->
  files w' = files w /\ abs w' = abs w /\ cache w' = cache w /\
  e' = set_file e (file e') /\
  (forall fd, file e = Some fd -> file e' = Some fd) /\
  (forall fd, Some fd <> file e' -> handles w' !! fd = handles w !! fd) /\
  (forall fd, is_Some (handles w !! fd) -> is_Some (handles w' !! fd)).
Proof.
  intros H.
  destruct (Request_never_closes e e' w w' n r H) as (Hk & Hsame & _).
  assert (files w' = files w /\ abs w' = abs w /\ cache w' = cache w /\
          e' = set_file e (file e') /\
          (forall fd, Some fd <> file e' -> handles w' !! fd = handles w !! fd))
    as (F & A & C & E & Hh);
    [|repeat split; assumption].
  assert (set_file e (file e) = e) as Hfix by (destruct e; reflexivity).
  unfold Request in H.
  destruct (n =? 0).
  { injection H as <- <- <-. rewrite Hfix. auto. }
  destruct (numBlocks e <=? wrap64 (n - 1)).
  { injection H as <- <- <-. rewrite Hfix. auto. }
  assert (exists w1 f oerr,
            match file e with
            | Some fd => (w, Some fd, None)
            | None => os_Open w (FileName e)
            end = (w1, f, oerr) /\
            files w1 = files w /\ abs w1 = abs w /\ cache w1 = cache w /\
            (forall fd, Some fd <> f -> handles w1 !! fd = handles w !! fd))
    as (w1 & f & oerr & Ho & F1 & A1 & C1 & H1).
  { destruct (file e) as [fd|].
    - eexists _, _, _. split; [reflexivity|]. auto.
    - unfold os_Open. destruct (files w !! FileName e).
      + eexists _, _, _. split; [reflexivity|]. simpl. repeat split.
        intros fd Hne. apply lookup_insert_ne. congruence.
      + eexists _, _, _. split; [reflexivity|]. auto. }
  rewrite Ho in H. clear Ho.
  destruct f as [fd|].
  2:{ injection H as <- <- <-. simpl. auto. }
  pose proof (file_Seek_frame w1 fd (wrap64 (BlockSize e * wrap64 (n - 1))))
    as (F2 & A2 & C2 & H2).
  destruct (file_Seek w1 fd (wrap64 (BlockSize e * wrap64 (n - 1)))) as [w2 [err|]];
    simpl in F2, A2, C2, H2.
  { injection H as <- <- <-. simpl.
    rewrite F2, A2, C2. repeat split; try assumption.
    intros fd' Hne. rewrite H2 by congruence. apply H1. exact Hne. }
  destruct (make_bytes _) as [block|]; [|discriminate].
  pose proof (file_Read_frame w2 fd block) as (F3 & A3 & C3 & H3).
  destruct (file_Read w2 fd block) as [[w3 block1] rerr];
    simpl in F3, A3, C3, H3.
  assert (files w3 = files w /\ abs w3 = abs w /\ cache w3 = cache w /\
          forall fd', Some fd' <> Some fd -> handles w3 !! fd' = handles w !! fd')
    as Hall.
  { rewrite F3, A3, C3, F2, A2, C2. repeat split; try assumption.
    intros fd' Hne. rewrite H3, H2 by congruence. apply H1. exact Hne. }
  destruct Hall as (F & A & C & Hh).
  destruct rerr as [err|].
  { injection H as <- <- <-. simpl. auto. }
  destruct (negb _).
  - destruct (os_ReadFile w3 (cacheKey e) n) as [hash [err|]];
      injection H as <- <- <-; simpl; auto.
  - injection H as <- <- <-. simpl. auto.
Qed.

(** X12. [Close] on an encoder whose file is open releases the descriptor
    and returns nil; a second [Close] returns the already-closed error, and
    so does every later request for a block that exists: the file is not
    opened again, since the handle of the encoder is not nil. *)
Theorem Request_after_Close (e : Encoder) (w : World) (fd : nat)
    (name : string) (off : Z) :
  file e = Some fd -> handles w !! fd = Some (name, off) ->
  let w1 := set_handles w (delete fd (handles w)) in
  Close e w = Returned (w1, None) /\
  Close e w1 = Returned (w1, Some ErrClosed) /\
  forall n, n <> 0 -> wrap64 (n - 1) < numBlocks e ->
    Request e w1 n = Returned (e, w1, ([], Some ErrClosed)).
Proof.
  intros Hfile Hopen w1.
  assert (handles w1 !! fd = None) as Hclosed by (simpl; apply lookup_delete_eq).
  split; [|split].
  - unfold Close, file_Close. rewrite Hfile, Hopen. reflexivity.
  - unfold Close, file_Close. rewrite Hfile, Hclosed. reflexivity.
  - intros n Hn Hlt. unfold Request.
    destruct (n =? 0) eqn:E0; [apply Z.eqb_eq in E0; contradiction|].
    destruct (numBlocks e <=? wrap64 (n - 1)) eqn:E1; [apply Z.leb_le in E1; lia|].
    rewrite Hfile. unfold file_Seek. rewrite Hclosed.
    assert (set_file e (Some fd) = e) as ->
      by (rewrite <- Hfile; destruct e; reflexivity).
    reflexivity.
Qed.

Lemma Request_frame_witness :
  let e := mkEncoder "testdata/test_0" 2 "" None 3 1 in
  let w := sample_world five_bytes in
  match Request e w 3 with
  | Returned (e', w', r) =>
      files w' = files w /\ abs w' = abs w /\ cache w' = cache w /\
      e' = set_file e (file e') /\
      (forall fd, file e = Some fd -> file e' = Some fd) /\
      (forall fd, Some fd <> file e' -> handles w' !! fd = handles w !! fd) /\
      (forall fd, is_Some (handles w !! fd) -> is_Some (handles w' !! fd))
  | Panicked => False
  end.
Proof.
  intros e w.
  destruct (Request e w 3) as [[[e' w'] r]|] eqn:H.
  - exact (Request_frame e e' w w' 3 r H).
  - vm_compute in H. discriminate.
Defined.

Lemma Request_after_Close_witness :
  let e := mkEncoder "testdata/test_0" 2 "" (Some 0%nat) 3 1 in
  let w := mkWorld {[ "testdata/test_0"%string := Regular five_bytes ]}
                   (fun name => Some name) ∅
                   {[ 0%nat := ("testdata/test_0"%string, 4) ]} in
  let w1 := set_handles w (delete 0%nat (handles w)) in
  Close e w = Returned (w1, None) /\
  Close e w1 = Returned (w1, Some ErrClosed) /\
  Request e w1 2 = Returned (e, w1, ([], Some ErrClosed)).
Proof.
  intros e w w1.
  assert (file e = Some 0%nat) as H1 by reflexivity.
  assert (handles w !! 0%nat = Some ("testdata/test_0"%string, 4)) as H2
    by reflexivity.
  destruct (Request_after_Close e w 0%nat _ 4 H1 H2) as (Ha & Hb & Hc).
  split; [exact Ha|]. split; [exact Hb|].
  apply Hc; [discriminate|reflexivity].
Defined.

(** ** [Stream] *)

Lemma streamLoop_keeps (fuel : nat) :
  forall (e e' : Encoder) (w w' : World) (i : Z) (hash out out' : list byte)
         (reqErr decodeErr : option error),
  streamLoop fuel e w i hash out = Some (Returned (e', w', out', reqErr, decodeErr)) ->
  keeps_open w w' /\ (forall fd, file e = Some fd -> file e' = Some fd).
Proof.
  induction fuel as [|fuel IH]; intros e e' w w' i hash out out' reqErr decodeErr H;
    [discriminate|].
  simpl in H.
  destruct (Request e w i) as [[[e1 w1] [hashedBlock [err|]]]|] eqn:HR;
    [| |discriminate].
  - injection H as <- <- _ _ _.
    destruct (Request_never_closes _ _ _ _ _ _ HR) as (Hk & Hf & _). auto.
  - destruct (Request_never_closes _ _ _ _ _ _ HR) as (Hk & Hf & _).
    destruct (Decode hash hashedBlock) as [[[block nextHash] [err|]]|];
      [| |discriminate].
    + injection H as <- <- _ _ _. auto.
    + destruct (IH _ _ _ _ _ _ _ _ _ _ H) as (Hk' & Hf').
      split; [eapply keeps_open_trans; eassumption|auto].
Qed.

(** X13. [Stream] on a file that is not empty and not yet in the cache,
    with fuel for its loop: the output is the input, byte for byte, the
    loop ends on the end of the stream with no error of the verifier, the
    descriptor that the encoder opened is still open when [Stream] is done
    (it never calls [Close]), and the report after the loop is empty. *)
Theorem Stream_reproduces_file (e : Encoder) (w : World) (data : list byte)
    (fpath : string) (fuel : nat) :
  files w !! FileName e = Some (Regular data) ->
  1 <= len data < max_int64 ->
  abs w (FileName e) = Some fpath ->
  cache w !! hex_EncodeToString (sha256 (list_byte_of_string fpath)) = None ->
  file e = None ->
  len data < Z.of_nat fuel ->
  exists e' w' fd,
    Stream fuel e w = Some (Returned (e', w', data, Some EOF, None)) /\
    file e' = Some fd /\ is_Some (handles w' !! fd) /\ handles w !! fd = None /\
    Stream_report fuel e w = Some (Returned []).
Proof.
  intros Hf Hsize Habs Hmiss Hnil Hfuel.
  destruct (Stream_copies_file e w data fpath fuel Hf Hsize Habs Hmiss Hnil Hfuel)
    as (e' & w' & HS).
  destruct (PreProcess_ready e w data fpath Hf ltac:(lia) Habs Hmiss Hnil)
    as (e1 & w1 & HP & Hready & Hnil1 & _ & _ & _ & Hhbs & Hh1).
  pose proof (ready_geometry data e1 w1 Hready) as Hgeo.
  pose proof Hready as (_ & _ & Hb & _ & Hnb1 & _).
  assert (0 < highestBlockSize e1) as Hhbs1.
  { rewrite Hhbs. pose proof (Z.mod_pos_bound (len data - 1) (BlockSize e1) Hb). lia. }
  destruct (Request_ready data e1 w1 0 Hready ltac:(lia))
    as (f0 & w0 & HR0 & _ & _ & _ & _ & _ & Hsame & _).
  destruct (Hsame (or_introl eq_refl)) as [-> ->].
  assert (set_file e1 (file e1) = e1) as Hfix by (destruct e1; reflexivity).
  rewrite Hfix in HR0.
  destruct (Request_ready data e1 w1 1 Hready ltac:(lia))
    as (f1 & w2 & HR1 & _ & _ & _ & _ & _ & _ & Hopen).
  destruct (Hopen ltac:(lia)) as (fd & -> & Hfd & Hnew & _).
  exists e', w', fd. split; [exact HS|].
  pose proof HS as HS0.
  unfold Stream in HS. rewrite HP, HR0 in HS.
  unfold response in HS. change (0 =? 0) with true in HS. cbv iota in HS.
  destruct fuel as [|fuel]; [discriminate|].
  simpl in HS. rewrite HR1 in HS.
  rewrite (response_block data _ _ 1) in HS by lia.
  assert (trusted_after data (BlockSize e1) (numBlocks e1) (1 - 1)
          = chain_hash data (BlockSize e1) (numBlocks e1) 0) as Ht.
  { unfold trusted_after. change (1 - 1) with 0.
    destruct (0 =? numBlocks e1) eqn:E; [apply Z.eqb_eq in E; lia|reflexivity]. }
  rewrite <- Ht in HS.
  rewrite (Decode_response data _ _ _ Hgeo Hnb1 Hhbs1 1) in HS by lia.
  destruct (streamLoop_keeps _ _ _ _ _ _ _ _ _ _ _ HS) as (Hk & Hf').
  split; [apply Hf'; reflexivity|].
  split; [apply Hk; exact Hfd|].
  split; [rewrite <- Hh1; apply Hnew; exact Hnil1|].
  unfold Stream_report. rewrite HP, HR0.
  unfold response. change (0 =? 0) with true. cbv iota.
  unfold Stream in HS0. rewrite HP, HR0 in HS0.
  unfold response in HS0. change (0 =? 0) with true in HS0. cbv iota in HS0.
  rewrite HS0. reflexivity.
Qed.

Lemma Stream_reproduces_file_witness :
  exists e' w' fd,
    Stream 6 (sample_encoder 2) (sample_world five_bytes)
      = Some (Returned (e', w', five_bytes, Some EOF, None)) /\
    file e' = Some fd /\ is_Some (handles w' !! fd) /\
    handles (sample_world five_bytes) !! fd = None /\
    Stream_report 6 (sample_encoder 2) (sample_world five_bytes) = Some (Returned []).
Proof.
  assert (files (sample_world five_bytes) !! FileName (sample_encoder 2)
          = Some (Regular five_bytes)) as H1 by reflexivity.
  assert (1 <= len five_bytes < max_int64) as H2
    by (unfold max_int64, len, five_bytes; cbn [length]; lia).
  assert (abs (sample_world five_bytes) (FileName (sample_encoder 2))
          = Some "/srv/testdata/test_0"%string) as H3 by reflexivity.
  assert (cache (sample_world five_bytes)
            !! hex_EncodeToString (sha256 (list_byte_of_string "/srv/testdata/test_0"))
          = None) as H4 by (apply lookup_empty).
  assert (file (sample_encoder 2) = None) as H5 by reflexivity.
  assert (len five_bytes < Z.of_nat 6) as H6
    by (unfold len, five_bytes; cbn [length]; lia).
  destruct (Stream_reproduces_file (sample_encoder 2) (sample_world five_bytes)
              five_bytes _ 6%nat H1 H2 H3 H4 H5 H6)
    as (e' & w' & fd & Ha & Hb & Hc & Hd & He).
  exists e', w', fd. repeat split; assumption.
Defined.

(** X14. Whatever the file and the file system, [Stream] never prints
    "Success: end of stream": the [reqErr] it tests after the loop is the
    error of request 0, which is never the end of the stream. *)
Theorem Stream_never_reports_success (fuel : nat) (e : Encoder) (w : World) :
  match Stream_report fuel e w with
  | Some (Returned messages) => ~ In Success messages
  | _ => True
  end.
Proof.
  unfold Stream_report.
  destruct (PreProcess e w) as [[e0 w0] perr].
  assert (~ In Success match perr with
                       | Some _ => [ErrorMessage perr]
                       | None => []
                       end) as Hfirst.
  { destruct perr; simpl; intros H; [destruct H as [H|H]; [discriminate|]|];
      exact H. }
  unfold Request. change (0 =? 0) with true. cbv iota.
  unfold os_ReadFile.
  assert (forall d, ~ In Success (report None d)) as Hnone.
  { intros [d|]; simpl; intros H; [destruct H as [H|H]; [discriminate|]|]; exact H. }
  destruct (cache w0 !! cacheKey e0) as [[|entries]|].
  - intros H. apply in_app_or in H. destruct H as [H|H]; [auto|].
    simpl in H. destruct H as [H|H]; [discriminate|exact H].
  - destruct (entries !! 0) as [h|].
    + destruct (streamLoop fuel e0 w0 1 h []) as [[[[[[e' w'] out] r] d]|]|];
        [|exact I..].
      intros H. apply in_app_or in H. destruct H as [H|H]; [auto|].
      exact (Hnone d H).
    + intros H. apply in_app_or in H. destruct H as [H|H]; [auto|].
      simpl in H. destruct H as [H|H]; [discriminate|exact H].
  - intros H. apply in_app_or in H. destruct H as [H|H]; [auto|].
    simpl in H. destruct H as [H|H]; [discriminate|exact H].
Qed.

(** X15. [Stream] run again on the file system left by [PreProcess], the
    cache of the file now in place, does what the first run did: the
    second [PreProcess] finds the cache and changes nothing, and output,
    errors and report are the same. *)
Theorem Stream_again (e : Encoder) (w : World) (data : list byte)
    (fpath : string) (fuel : nat) :
  files w !! FileName e = Some (Regular data) ->
  abs w (FileName e) = Some fpath ->
  cache w !! hex_EncodeToString (sha256 (list_byte_of_string fpath)) = None ->
  let '(e1, w1, _) := PreProcess e w in
  PreProcess e w1 = (e1, w1, None) /\
  Stream fuel e w1 = Stream fuel e w /\
  Stream_report fuel e w1 = Stream_report fuel e w.
Proof.
  intros Hf Habs Hmiss.
  destruct (PreProcess_miss_any e w data fpath Hf Habs Hmiss) as (entries & HP).
  cbv zeta in HP. rewrite HP.
  match type of HP with
  | _ = (?e1, ?w1, _) =>
      pose proof (PreProcess_hit e w1 data fpath entries) as H
  end.
  cbn [files abs cache] in H.
  specialize (H Hf Habs (lookup_insert_eq _ _ _)).
  split; [exact H|].
  unfold Stream, Stream_report. rewrite H, HP. split; reflexivity.
Qed.

Lemma Stream_again_witness :
  let '(e1, w1, _) := PreProcess (sample_encoder 2) (sample_world five_bytes) in
  PreProcess (sample_encoder 2) w1 = (e1, w1, None) /\
  Stream 6 (sample_encoder 2) w1 = Stream 6 (sample_encoder 2) (sample_world five_bytes) /\
  Stream_report 6 (sample_encoder 2) w1
    = Stream_report 6 (sample_encoder 2) (sample_world five_bytes).
Proof.
  exact (Stream_again (sample_encoder 2) (sample_world five_bytes) five_bytes
           "/srv/testdata/test_0" 6 (sample_file five_bytes 2) eq_refl
           (sample_miss five_bytes)).
Defined.

(** ** The first encoder *)

Lemma drop_make (n : nat) (size : Z) :
  drop n (make size) = make (size - Z.of_nat n).
Proof.
  unfold make.
  replace (Z.to_nat (size - Z.of_nat n)) with (Z.to_nat size - n)%nat by lia.
  generalize (Z.to_nat size) as k. clear size.
  induction n as [|n IH]; intros k.
  - rewrite Nat.sub_0_r. reflexivity.
  - destruct k as [|k]; simpl; [reflexivity|]. apply IH.
Qed.

Lemma file_block_len (data : list byte) (blockSize i : Z) :
  0 <= blockSize -> 0 <= blockSize * i ->
  len (file_block data blockSize i)
    = Z.min blockSize (Z.max 0 (len data - blockSize * i)).
Proof.
  intros Hb Hi. unfold file_block, len. rewrite length_take, length_drop. lia.
Qed.

Section FirstEncoder.

Variable name : string.
Variable data : list byte.
Variable bs : Z.
Hypothesis Hbs : 0 < bs.

Let m : Z := (len data + bs - 1) / bs.
Let digest : list byte := sha256 [].

Lemma blocks_bound : 0 <= m /\ bs * (m - 1) < len data <= bs * m.
Proof.
  unfold m. pose proof (len_nonneg data) as Hl.
  pose proof (Z.div_mod (len data + bs - 1) bs ltac:(lia)) as Hdm.
  pose proof (Z.mod_pos_bound (len data + bs - 1) bs Hbs) as Hm.
  assert (0 <= (len data + bs - 1) / bs) by (apply Z.div_pos; lia).
  split; [assumption|]. nia.
Qed.

(** A request on an encoder that is not finished and has its file open at
    the start of block [j]. *)
Lemma Request_reading (blockSize : Z) (fd : nat) (next : list byte)
    (w : World) (j : Z) :
  (if blockSize <=? 0 then defaultBlockSize else blockSize) = bs ->
  files w !! name = Some (Regular data) ->
  handles w !! fd = Some (name, Z.min (bs * j) (len data)) ->
  0 <= j <= m ->
  Encoder0.Request (Encoder0.mkEncoder name blockSize false (Some fd) next) w =
    if j <? m then
      (Encoder0.mkEncoder name bs false (Some fd) (padded_block data bs j),
       set_handles w (<[fd := (name, Z.min (bs * (j + 1)) (len data))]> (handles w)),
       (next ++ next ++ digest, None))
    else
      (Encoder0.mkEncoder name bs true (Some fd) (make bs),
       set_handles w (delete fd (handles w)),
       (next ++ next ++ digest, None)).
Proof.
  intros Hcoerce Hf Hfd Hj.
  destruct blocks_bound as (Hm0 & Hlo & Hhi).
  pose proof (len_nonneg data) as Hl.
  unfold Encoder0.Request.
  cbn [Encoder0.finished Encoder0.file Encoder0.FileName Encoder0.BlockSize
       Encoder0.nextBlock].
  rewrite Hcoerce. unfold file_Read. rewrite Hfd, Hf.
  assert (length (make bs) = Z.to_nat bs) as Hlen
    by (unfold make; apply repeat_length).
  rewrite Hlen.
  destruct (Z.to_nat bs =? 0)%nat eqn:E0; [apply Nat.eqb_eq in E0; lia|].
  destruct (j <? m) eqn:Ej.
  - apply Z.ltb_lt in Ej.
    assert (bs * j < len data) as Hoff by nia.
    assert (0 <= bs * j) as Hoff0 by nia.
    rewrite Z.min_l by lia.
    assert (take (Z.to_nat bs) (drop (Z.to_nat (bs * j)) data)
            = file_block data bs j) as Hgot by reflexivity.
    rewrite Hgot.
    assert (len (file_block data bs j) = Z.min bs (len data - bs * j)) as Hgl.
    { rewrite file_block_len by lia. lia. }
    destruct (file_block data bs j) as [|b got] eqn:G.
    { change (len []) with 0 in Hgl. lia. }
    rewrite <- G in *. clear G.
    unfold padded_block. rewrite drop_make.
    replace (Z.of_nat (length (file_block data bs j)))
      with (len (file_block data bs j)) by reflexivity.
    replace (bs * j + len (file_block data bs j))
      with (Z.min (bs * (j + 1)) (len data)) by lia.
    reflexivity.
  - apply Z.ltb_ge in Ej. assert (j = m) as -> by lia.
    rewrite Z.min_r by lia.
    rewrite drop_ge by (unfold len in *; lia). simpl take.
    rewrite take_nil.
    unfold file_Close. rewrite Hfd. reflexivity.
Qed.

Lemma requests_reading (k : nat) :
  forall (blockSize : Z) (fd : nat) (next : list byte) (w : World) (j : Z),
  (if blockSize <=? 0 then defaultBlockSize else blockSize) = bs ->
  files w !! name = Some (Regular data) ->
  handles w !! fd = Some (name, Z.min (bs * j) (len data)) ->
  0 <= j -> j + Z.of_nat k = m ->
  Encoder0.requests (k + 3) (Encoder0.mkEncoder name blockSize false (Some fd) next) w =
    (Encoder0.mkEncoder name bs true (Some fd) [],
     set_handles w (delete fd (handles w)),
     (next ++ next ++ digest, None)
       :: map (fun i => (padded_block data bs i ++ padded_block data bs i ++ digest, None))
              (seqZ j (Z.of_nat k))
       ++ [(make bs, Some EOF); ([], Some EOF)]).
Proof.
  induction k as [|k IH]; intros blockSize fd next w j Hcoerce Hf Hfd Hj Hk.
  - change (0 + 3)%nat with 3%nat. cbn [Encoder0.requests].
    rewrite (Request_reading blockSize fd next w j Hcoerce Hf Hfd) by lia.
    destruct (j <? m) eqn:Ej; [apply Z.ltb_lt in Ej; lia|].
    reflexivity.
  - change (S k + 3)%nat with (S (k + 3)). cbn [Encoder0.requests].
    rewrite (Request_reading blockSize fd next w j Hcoerce Hf Hfd) by lia.
    destruct (j <? m) eqn:Ej; [|apply Z.ltb_ge in Ej; lia].
    rewrite (IH bs fd (padded_block data bs j) _ (j + 1)).
    + cbn [handles set_handles]. rewrite delete_insert_eq.
      rewrite (seqZ_cons j (Z.of_nat (S k))) by lia.
      replace (Z.pred (Z.of_nat (S k))) with (Z.of_nat k) by lia.
      replace (Z.succ j) with (j + 1) by lia.
      reflexivity.
    + destruct (bs <=? 0) eqn:E; [apply Z.leb_le in E; lia|reflexivity].
    + exact Hf.
    + simpl. apply lookup_insert_eq.
    + lia.
    + lia.
Qed.

End FirstEncoder.

(** X16. The first encoder, from a fresh state on a regular file of [m]
    blocks (the last one counted when it is partial): request 1 returns
    the digest of the empty message; each of the next [m] requests returns
    a block twice, padded with zero bytes to the block size, followed by
    that same digest, which depends on no byte of the file; all these
    return a nil error. The request after them returns [BlockSize] zero
    bytes with the end of the stream, and the next one no bytes with the
    end of the stream. The file was closed by then: the file system is as
    before the first request. *)
Theorem Encoder0_requests (name : string) (blockSize : Z) (w : World)
    (data : list byte) :
  files w !! name = Some (Regular data) ->
  let bs := if blockSize <=? 0 then defaultBlockSize else blockSize in
  let m := (len data + bs - 1) / bs in
  Encoder0.requests (Z.to_nat m + 3) (Encoder0.mkEncoder name blockSize false None []) w =
    (Encoder0.mkEncoder name bs true (Some (fresh (dom (handles w)))) [], w,
     (sha256 [], None)
       :: map (fun i => (padded_block data bs i ++ padded_block data bs i ++ sha256 [],
                         None))
              (seqZ 0 m)
       ++ [(make bs, Some EOF); ([], Some EOF)]).
Proof.
  intros Hf bs m.
  assert (0 < bs) as Hbs.
  { unfold bs, defaultBlockSize.
    destruct (blockSize <=? 0) eqn:E; [lia|apply Z.leb_gt in E; exact E]. }
  destruct (blocks_bound data bs Hbs) as (Hm0 & _). fold m in Hm0.
  set (fd := fresh (dom (handles w))).
  set (w1 := set_handles w (<[fd := (name, 0)]> (handles w))).
  assert (Encoder0.requests (Z.to_nat m + 3)
            (Encoder0.mkEncoder name blockSize false None []) w
          = Encoder0.requests (Z.to_nat m + 3)
              (Encoder0.mkEncoder name blockSize false (Some fd) []) w1) as ->.
  { replace (Z.to_nat m + 3)%nat with (S (Z.to_nat m + 2)) by lia.
    cbn [Encoder0.requests]. unfold Encoder0.Request.
    cbn [Encoder0.finished Encoder0.file Encoder0.FileName Encoder0.BlockSize
         Encoder0.nextBlock].
    unfold os_Open. rewrite Hf. fold fd. fold w1. reflexivity. }
  rewrite (requests_reading name data bs Hbs (Z.to_nat m) blockSize fd [] w1 0).
  - rewrite Z2Nat.id by lia. f_equal. f_equal.
    destruct w as [f a c h]. unfold w1, set_handles. simpl. f_equal.
    apply delete_insert_id. apply not_elem_of_dom. apply is_fresh.
  - reflexivity.
  - exact Hf.
  - simpl. rewrite lookup_insert_eq. f_equal. f_equal.
    pose proof (len_nonneg data). lia.
  - lia.
  - fold m. lia.
Qed.

Lemma Encoder0_requests_witness :
  let bs := if 2 <=? 0 then defaultBlockSize else 2 in
  let m := (len five_bytes + bs - 1) / bs in
  Encoder0.requests (Z.to_nat m + 3)
      (Encoder0.mkEncoder "testdata/test_0" 2 false None []) (sample_world five_bytes) =
    (Encoder0.mkEncoder "testdata/test_0" bs true
       (Some (fresh (dom (handles (sample_world five_bytes))))) [],
     sample_world five_bytes,
     (sha256 [], None)
       :: map (fun i => (padded_block five_bytes bs i ++ padded_block five_bytes bs i
                           ++ sha256 [], None))
              (seqZ 0 m)
       ++ [(make bs, Some EOF); ([], Some EOF)]).
Proof.
  exact (Encoder0_requests "testdata/test_0" 2 (sample_world five_bytes) five_bytes
           (sample_file five_bytes 2)).
Defined.

Example Encoder0_five_bytes :
  let '(_, _, rs) :=
    Encoder0.requests 6 (Encoder0.mkEncoder "testdata/test_0" 2 false None [])
                      (sample_world five_bytes) in
  map (fun r => (take 4 (fst r), length (fst r), snd r)) rs =
    [(take 4 (sha256 []), 32%nat, None);
     ([x01; x02; x01; x02], 36%nat, None);
     ([x03; x04; x03; x04], 36%nat, None);
     ([x05; x00; x05; x00], 36%nat, None);
     ([x00; x00], 2%nat, Some EOF);
     ([], 0%nat, Some EOF)].
Proof. vm_compute. reflexivity. Qed.

(** X17. [Close] of the first encoder marks it finished in every case; on
    an encoder that never opened its file it returns the invalid-argument
    error of a nil file and changes nothing else. The next request hands
    out the block that was pending with the end of the stream, the one
    after it nothing with the end of the stream, and neither touches the
    file system. *)
Theorem Encoder0_Close_ends_stream (e : Encoder0.Encoder) (w : World) :
  let '(e1, w1, err) := Encoder0.Close e w in
  Encoder0.IsFinished e1 = true /\
  (Encoder0.file e = None -> err = Some ErrInvalid /\ w1 = w) /\
  (forall fd, Encoder0.file e = Some fd -> handles w1 !! fd = None) /\
  Encoder0.requests 2 e1 w1 =
    (Encoder0.mkEncoder (Encoder0.FileName e) (Encoder0.BlockSize e) true
                        (Encoder0.file e) [],
     w1, [(Encoder0.nextBlock e, Some EOF); ([], Some EOF)]).
Proof.
  unfold Encoder0.Close, file_Close.
  destruct (Encoder0.file e) as [fd|] eqn:Efile.
  - destruct (handles w !! fd) as [x|] eqn:Eh.
    + split; [reflexivity|]. split; [discriminate|].
      split; [|reflexivity].
      intros fd' H. injection H as <-. simpl. apply lookup_delete_eq.
    + split; [reflexivity|]. split; [discriminate|].
      split; [|reflexivity].
      intros fd' H. injection H as <-. exact Eh.
  - split; [reflexivity|]. split; [auto|]. split; [discriminate|reflexivity].
Qed.
